(** * custom-sql-metrics: the collection and exposition pipeline of main.go

    A shallow embedding of [runQuery], [buildLabelsKey], [handleMetrics],
    [escapeLabelValue] and [handleMetricsJSON], and the properties of the
    metric store they maintain; and of [LoadConfig] of config.go.

    The store [App.metrics] is a Go [map[string]interface{}]: it is modelled
    as a [gmap string Metric].  Go leaves the order of a [range] over a map
    unspecified; every function that ranges over a map takes the order of
    that traversal as an argument ([RangeOrder]).  The mutex is not modelled:
    each function below is one critical section. *)

From Stdlib Require Import ZArith String Ascii.
From stdpp Require Import base option list gmap strings sorting pretty.

Open Scope Z_scope.
Open Scope string_scope.
Open Scope list_scope.

(** ** Library interface: float64 *)

(** The float64 operations main.go takes from the Go library: the conversion
    [float64(v)] of an integer, [strconv.ParseFloat(s, 64)] ([None] for an
    error) and the verb [%g] of package fmt; and for a float32 its type, the
    conversion [float64(v)] and the text [%v] prints for it. *)
Class Float64Ops := {
  float64 : Type;
  float64_of_int64 : Z -> float64;
  ParseFloat : string -> option float64;
  format_g : float64 -> string;
  float32 : Type;
  float64_of_float32 : float32 -> float64;
  format_g32 : float32 -> string
}.

(** ** Strings *)

Definition nl : string := String "010"%char EmptyString.
Definition dquote : string := String "034"%char EmptyString.
Definition backslash : string := String "092"%char EmptyString.

(** [len(k) >= len(prefix) && k[:len(prefix)] == prefix] *)
Definition hasPrefix (prefix k : string) : bool :=
  (String.length prefix <=? String.length k)%nat
  && String.eqb (substring 0 (String.length prefix) k) prefix.

(** The strings that do not contain the separator of the store keys. *)
Fixpoint noUnderscore (s : string) : bool :=
  match s with
  | EmptyString => true
  | String c rest => negb (Ascii.eqb c "_") && noUnderscore rest
  end.

(** A string that is empty or starts with the separator. *)
Definition sepStart (r : string) : Prop :=
  r = EmptyString ∨ exists r', r = String "_" r'.

(** The label sets whose keys and values do not contain the separator. *)
Definition labelsClean (labels : gmap string string) : Prop :=
  forall k v, labels !! k = Some v ->
    noUnderscore k = true ∧ noUnderscore v = true.

(** The order of [sort.Strings]: bytewise lexicographic. *)
Definition string_le (a b : string) : Prop := String.leb a b = true.

#[global] Instance string_le_dec a b : Decision (string_le a b).
Proof. unfold string_le. apply _. Defined.

(** ** Data model *)

Section Model.
Context `{F64 : Float64Ops}.

(** What [rows.Scan] stores into an [interface{}] destination: the value the
    driver hands over, by its dynamic type.  These are the types of
    [driver.Value] and the further types the switches of [handleMetrics]
    name, which a driver may pass through; an integer is held by its value.
    A [time.Time], and a value of any other type, is held by its default
    text. *)
Inductive Value :=
| VNil
| VInt64 (z : Z)
| VFloat64 (f : float64)
| VBool (b : bool)
| VBytes (b : string)
| VString (s : string)
| VTime (text : string)
| VInt (z : Z)
| VInt32 (z : Z)
| VUint (z : Z)
| VUint32 (z : Z)
| VUint64 (z : Z)
| VFloat32 (f : float32)
| VOther (text : string).

(** An entry of [App.metrics]: the scanned value itself for a row without
    labels, or the map [{"value": v, "labels": labels}]. *)
Inductive Metric :=
| Direct (v : Value)
| Labeled (v : Value) (labels : gmap string string).

(** [MetricConfig]; the interval plays no part in a poll. *)
Record MetricConfig := { Name : string; Query : string }.

(** The order in which one [range] statement visits the entries of a map:
    some enumeration of its entries, each exactly once. *)
Record RangeOrder (A : Type) := {
  range : gmap string A -> list (string * A);
  range_perm : forall m, range m ≡ₚ map_to_list m
}.
#[global] Arguments range {A} _ _.
#[global] Arguments range_perm {A} _ _.

(** What the database hands back to one poll. *)
Inductive ScanResult :=
| ScanError
| Scanned (values : list Value).

Inductive QueryResult :=
| QueryError
| ColumnsError
| Rows (columns : list string) (rows : list ScanResult) (rowsErr : bool).

(** The rows whose scan succeeded. *)
Definition isScanned (row : ScanResult) : bool :=
  match row with Scanned _ => true | ScanError => false end.

(** ** runQuery *)

(** The loop that looks for the column named [value]. *)
Fixpoint findValueIdx (columns : list string) : option nat :=
  match columns with
  | [] => None
  | col :: rest =>
      if String.eqb col "value" then Some 0%nat
      else S <$> findValueIdx rest
  end.

(** [fmt.Sprintf("%v", v)] by the dynamic type of [v]: an integer prints in
    decimal, and a byte slice prints as the list of its bytes in decimal,
    inside brackets. *)
Definition Sprintf_v (v : Value) : string :=
  match v with
  | VNil => "<nil>"
  | VInt64 z => pretty z
  | VFloat64 f => format_g f
  | VBool b => if b then "true" else "false"
  | VBytes b =>
      "[" +:+ String.concat " "
                (map (fun c => pretty (N_of_ascii c)) (list_ascii_of_string b))
          +:+ "]"
  | VString s => s
  | VTime text => text
  | VInt z | VInt32 z | VUint z | VUint32 z | VUint64 z => pretty z
  | VFloat32 f => format_g32 f
  | VOther text => text
  end.

(** The conversion of a scanned column to a label value: the nil test, then
    the type switch with its [[]byte] case and its default. *)
Definition labelValue (v : Value) : string :=
  match v with
  | VNil => "null"
  | VBytes b => b
  | _ => Sprintf_v v
  end.

(** [values[i]] of the scan destinations, which [make] fills with nil. *)
Definition valueAt (values : list Value) (i : nat) : Value :=
  default VNil (values !! i).

(** The loop over [columns] that fills [labels], from column [i] on. *)
Fixpoint rowLabelsFrom (i : nat) (columns : list string) (valueIdx : nat)
    (values : list Value) (labels : gmap string string) : gmap string string :=
  match columns with
  | [] => labels
  | col :: rest =>
      rowLabelsFrom (S i) rest valueIdx values
        (if (i =? valueIdx)%nat then labels
         else <[col := labelValue (valueAt values i)]> labels)
  end.

Definition rowLabels (columns : list string) (valueIdx : nat)
    (values : list Value) : gmap string string :=
  rowLabelsFrom 0 columns valueIdx values ∅.

(** The second loop of [buildLabelsKey], over the sorted keys. *)
Fixpoint writeKeys (labels : gmap string string) (i : nat) (keys : list string)
    : string :=
  match keys with
  | [] => EmptyString
  | k :: rest =>
      (if (0 <? i)%nat then "_" else EmptyString)
      +:+ k +:+ "_" +:+ default EmptyString (labels !! k)
      +:+ writeKeys labels (S i) rest
  end.

Definition buildLabelsKey (ρ : RangeOrder string) (labels : gmap string string)
    : string :=
  let keys := (range ρ labels).*1 in
  let keys := merge_sort string_le keys in
  writeKeys labels 0 keys.

(** The loop that deletes the keys of [metrics] that start with [prefix]. *)
Definition removePrefixed (ρ : RangeOrder Metric) (prefix : string)
    (metrics : gmap string Metric) : gmap string Metric :=
  foldl (fun acc kv => if hasPrefix prefix kv.1 then delete kv.1 acc else acc)
        metrics (range ρ metrics).

(** The lines [runQuery] hands to [log.Printf], by their format string. *)
Inductive LogLine :=
| LogQueryError (name : string)
| LogColumnsError (name : string)
| LogMissingValueColumn (name : string)
| LogScanError (name : string)
| LogRowsError (name : string)
| LogUpdated (name : string).

(** The body of the loop over [rows.Next()]; the state is the store and the
    log written so far. *)
Definition storeRow (ρl : RangeOrder string) (metric : MetricConfig)
    (columns : list string) (valueIdx : nat)
    (st : gmap string Metric * list LogLine) (row : ScanResult)
    : gmap string Metric * list LogLine :=
  let (metrics, log) := st in
  match row with
  | ScanError => (metrics, log ++ [LogScanError (Name metric)])
  | Scanned values =>
      let labels := rowLabels columns valueIdx values in
      if (0 <? size labels)%nat then
        let metricKeyName :=
          (Name metric +:+ "_") +:+ buildLabelsKey ρl labels in
        (<[metricKeyName := Labeled (valueAt values valueIdx) labels]> metrics,
         log)
      else
        (<[Name metric := Direct (valueAt values valueIdx)]> metrics, log)
  end.

(** [runQuery]: the store after the poll and the lines it logged. *)
Definition runQuery (ρ : RangeOrder Metric) (ρl : RangeOrder string)
    (metric : MetricConfig) (result : QueryResult)
    (metrics : gmap string Metric) : gmap string Metric * list LogLine :=
  match result with
  | QueryError => (metrics, [LogQueryError (Name metric)])
  | ColumnsError => (metrics, [LogColumnsError (Name metric)])
  | Rows columns rows rowsErr =>
      match findValueIdx columns with
      | None => (metrics, [LogMissingValueColumn (Name metric)])
      | Some valueIdx =>
          let prefix := Name metric +:+ "_" in
          let metrics := removePrefixed ρ prefix metrics in
          let (metrics, log) :=
            foldl (storeRow ρl metric columns valueIdx) (metrics, []) rows in
          let log :=
            if rowsErr then log ++ [LogRowsError (Name metric)] else log in
          (metrics, log ++ [LogUpdated (Name metric)])
      end
  end.

(** ** handleMetrics *)

(** The type switches of [handleMetrics], which are the same for a labelled
    and for a direct value: the value as a float64, or [None] where the
    handler skips the entry. *)
Definition toFloat (v : Value) : option float64 :=
  match v with
  | VInt z => Some (float64_of_int64 z)
  | VInt32 z => Some (float64_of_int64 z)
  | VInt64 z => Some (float64_of_int64 z)
  | VUint z => Some (float64_of_int64 z)
  | VUint32 z => Some (float64_of_int64 z)
  | VUint64 z => Some (float64_of_int64 z)
  | VFloat32 f => Some (float64_of_float32 f)
  | VFloat64 f => Some f
  | VBytes b => ParseFloat b
  | _ => None
  end.

(** [name[:idx]] for the first underscore at [idx > 0], else [name]. *)
Definition baseName (name : string) : string :=
  match String.index 0 "_" name with
  | Some (S idx) => substring 0 (S idx) name
  | _ => name
  end.

(** The replacer of [escapeLabelValue], which rewrites byte by byte. *)
Fixpoint escapeLabelValue (value : string) : string :=
  match value with
  | EmptyString => EmptyString
  | String c rest =>
      (if Ascii.eqb c "092" then backslash +:+ backslash
       else if Ascii.eqb c "010" then backslash +:+ "n"
       else if Ascii.eqb c "034" then backslash +:+ dquote
       else String c EmptyString)
      +:+ escapeLabelValue rest
  end.

(** The loop over [labels] that fills [labelStr]. *)
Fixpoint writeLabels (first : bool) (labels : list (string * string)) : string :=
  match labels with
  | [] => EmptyString
  | (k, v) :: rest =>
      (if first then EmptyString else ",")
      +:+ k +:+ "=" +:+ dquote +:+ escapeLabelValue v +:+ dquote
      +:+ writeLabels false rest
  end.

Definition helpLine (baseName : string) : string :=
  "# HELP " +:+ baseName +:+ " Value from custom SQL query" +:+ nl.

Definition typeLine (baseName : string) : string :=
  "# TYPE " +:+ baseName +:+ " gauge" +:+ nl.

(** One iteration of the loop of [handleMetrics]: the strings it writes,
    one per [fmt.Fprintf]. *)
Definition writeMetric (ρl : RangeOrder string) (name : string)
    (value : Metric) : list string :=
  let rawValue := match value with Labeled v _ => v | Direct v => v end in
  let labels := match value with Labeled _ l => l | Direct _ => ∅ end in
  match toFloat rawValue with
  | None => []
  | Some floatValue =>
      let baseName := baseName name in
      [ helpLine baseName;
        typeLine baseName;
        if (0 <? size labels)%nat then
          let labelStr := "{" +:+ writeLabels true (range ρl labels) +:+ "}" in
          baseName +:+ labelStr +:+ " " +:+ format_g floatValue +:+ nl
        else
          baseName +:+ " " +:+ format_g floatValue +:+ nl ]
  end.

(** The series blocks of the response, in the order of the range. *)
Definition metricBlocks (ρ : RangeOrder Metric) (ρl : RangeOrder string)
    (metrics : gmap string Metric) : list (list string) :=
  map (fun kv => writeMetric ρl kv.1 kv.2) (range ρ metrics).

(** [handleMetrics]: everything written to the response, in order. *)
Definition handleMetrics (ρ : RangeOrder Metric) (ρl : RangeOrder string)
    (metrics : gmap string Metric) : list string :=
  concat (metricBlocks ρ ρl metrics).

(** ** handleMetricsJSON *)

(** A value of the [response] map: a direct value, or the slice of
    [{"value", "labels"}] maps grouped under a base name. *)
Inductive JsonValue :=
| JDirect (v : Value)
| JGroup (metrics : list (Value * gmap string string)).

(** One iteration of the loop of [handleMetricsJSON]. *)
Definition groupMetric (response : gmap string JsonValue)
    (kv : string * Metric) : gmap string JsonValue :=
  match kv.2 with
  | Labeled v labels =>
      let baseName := baseName kv.1 in
      let metrics :=
        match response !! baseName with
        | Some (JGroup existingMetrics) => existingMetrics
        | _ => []
        end in
      <[baseName := JGroup (metrics ++ [(v, labels)])]> response
  | Direct v => <[kv.1 := JDirect v]> response
  end.

(** [handleMetricsJSON]: the [response] map handed to the JSON encoder. *)
Definition handleMetricsJSON (ρ : RangeOrder Metric)
    (metrics : gmap string Metric) : gmap string JsonValue :=
  foldl groupMetric ∅ (range ρ metrics).

(** ** Vocabulary of the statements about handleMetricsJSON *)

(** The labelled series of [l] whose key has base name [b], in the order
    of [l]. *)
Definition groupOf (b : string) (l : list (string * Metric))
    : list (Value * gmap string string) :=
  omap (fun kv => match kv.2 with
                  | Labeled v labels =>
                      if decide (baseName kv.1 = b) then Some (v, labels)
                      else None
                  | Direct _ => None
                  end) l.

(** The direct values of [l] stored under the key [b]. *)
Definition directOf (b : string) (l : list (string * Metric)) : list Value :=
  omap (fun kv => match kv.2 with
                  | Direct v => if decide (kv.1 = b) then Some v else None
                  | Labeled _ _ => None
                  end) l.

Definition jsonEntry (direct : list Value)
    (group : list (Value * gmap string string)) : option JsonValue :=
  match direct with
  | v :: _ => Some (JDirect v)
  | [] => match group with [] => None | _ => Some (JGroup group) end
  end.

(** No direct value is stored under the base name of a labelled key. *)
Definition groupsApart (metrics : gmap string Metric) : Prop :=
  forall k v labels v',
    metrics !! k = Some (Labeled v labels) ->
    metrics !! baseName k <> Some (Direct v').

(** [groupsApart], as a test that runs over the entries of the store. *)
Definition groupsApartb (metrics : gmap string Metric) : bool :=
  forallb (fun kv => match kv.2 with
                     | Labeled _ _ =>
                         match metrics !! baseName kv.1 with
                         | Some (Direct _) => false
                         | _ => true
                         end
                     | Direct _ => true
                     end) (map_to_list metrics).


End Model.

(** ** The entry a scanned row writes *)

Section RowEntries.
Context `{F64 : Float64Ops}.

(** The key under which [storeRow] stores a series of the family [name]
    with the label set [labels]: the name and the label key when there are
    labels, the bare name otherwise. *)
Definition seriesKey (ρl : RangeOrder string) (name : string)
    (labels : gmap string string) : string :=
  if (0 <? size labels)%nat then (name +:+ "_") +:+ buildLabelsKey ρl labels
  else name.

(** The key under which [storeRow] stores a scanned row. *)
Definition rowKey (ρl : RangeOrder string) (metric : MetricConfig)
    (columns : list string) (valueIdx : nat) (values : list Value) : string :=
  seriesKey ρl (Name metric) (rowLabels columns valueIdx values).

(** The entry [storeRow] stores for a scanned row. *)
Definition rowEntry (columns : list string) (valueIdx : nat)
    (values : list Value) : Metric :=
  let labels := rowLabels columns valueIdx values in
  if (0 <? size labels)%nat then Labeled (valueAt values valueIdx) labels
  else Direct (valueAt values valueIdx).

(** The entry of the last scanned row of [rows] that is stored under the
    key [k], if there is one. *)
Fixpoint lastEntry (ρl : RangeOrder string) (metric : MetricConfig)
    (columns : list string) (valueIdx : nat) (k : string)
    (rows : list ScanResult) : option Metric :=
  match rows with
  | [] => None
  | row :: rest =>
      match lastEntry ρl metric columns valueIdx k rest with
      | Some e => Some e
      | None =>
          match row with
          | Scanned values =>
              if decide (rowKey ρl metric columns valueIdx values = k)
              then Some (rowEntry columns valueIdx values)
              else None
          | ScanError => None
          end
      end
  end.

(** The keys a poll of the metric [name] may write or delete: the name
    itself and the keys that start with the name and an underscore. *)
Definition ownKey (name k : string) : Prop :=
  k = name ∨ hasPrefix (name +:+ "_") k = true.

(** The values of a row whose scan succeeded. *)
Definition scannedValues (row : ScanResult) : option (list Value) :=
  match row with
  | Scanned values => Some values
  | ScanError => None
  end.

(** The lines of the log of a poll whose result has the value column. *)
Definition pollLog (name : string) (rows : list ScanResult) (rowsErr : bool)
    : list LogLine :=
  map (fun _ => LogScanError name)
      (filter (fun r => isScanned r = false) rows)
  ++ (if rowsErr then [LogRowsError name] else [])
  ++ [LogUpdated name].

End RowEntries.

(** ** What the handlers make of an entry *)

Section HandlerEntries.
Context `{F64 : Float64Ops}.

(** A label pair as the exposition format writes it: the key, an equals
    sign and the escaped value in double quotes. *)
Definition labelPair (kv : string * string) : string :=
  kv.1 +:+ "=" +:+ dquote +:+ escapeLabelValue kv.2 +:+ dquote.

(** The label part of a sample line: nothing without pairs, else the pairs
    in braces with a comma between two of them. *)
Definition labelPart (pairs : list (string * string)) : string :=
  match pairs with
  | [] => EmptyString
  | _ => "{" +:+ String.concat "," (map labelPair pairs) +:+ "}"
  end.

(** The part of a string before its first underscore. *)
Fixpoint beforeUnderscore (s : string) : string :=
  match s with
  | EmptyString => EmptyString
  | String c rest =>
      if Ascii.eqb c "_" then EmptyString else String c (beforeUnderscore rest)
  end.

(** The family a store key is written under: the key up to its first
    underscore, and the whole key when it has none or starts with one. *)
Definition familyName (name : string) : string :=
  match name with
  | EmptyString => EmptyString
  | String c _ => if Ascii.eqb c "_" then name else beforeUnderscore name
  end.

(** The number a stored value is written as: an integer of any width and a
    float32 converted to float64, a float64 as it is, bytes parsed as a
    float64; no number for bytes that do not parse and for a value of any
    other kind. *)
Definition numberOf (v : Value) : option float64 :=
  match v with
  | VInt z | VInt32 z | VInt64 z | VUint z | VUint32 z | VUint64 z =>
      Some (float64_of_int64 z)
  | VFloat32 f => Some (float64_of_float32 f)
  | VFloat64 f => Some f
  | VBytes b => ParseFloat b
  | VNil | VBool _ | VString _ | VTime _ | VOther _ => None
  end.

(** The lines of the exposition format for one entry of the store: none
    when the value of the entry is not a number, else the HELP, the TYPE
    and the sample line of the series. *)
Definition expositionBlock (ρl : RangeOrder string) (name : string)
    (value : Metric) : list string :=
  let base := familyName name in
  let number := match value with Direct v | Labeled v _ => numberOf v end in
  let pairs := match value with
               | Direct _ => []
               | Labeled _ labels => range ρl labels
               end in
  match number with
  | None => []
  | Some floatValue =>
      ["# HELP " +:+ base +:+ " Value from custom SQL query" +:+ nl;
       "# TYPE " +:+ base +:+ " gauge" +:+ nl;
       base +:+ labelPart pairs +:+ " " +:+ format_g floatValue +:+ nl]
  end.

(** The key of [response] that [handleMetricsJSON] assigns for an entry. *)
Definition jsonKey (name : string) (value : Metric) : string :=
  match value with
  | Labeled _ _ => baseName name
  | Direct _ => name
  end.





(** The stores in which every labelled entry carries at least one label. *)
Definition labelledNonEmpty (metrics : gmap string Metric) : Prop :=
  forall k v labels,
    metrics !! k = Some (Labeled v labels) -> labels <> ∅.

End HandlerEntries.

(** ** LoadConfig *)

(** [DatabaseConfig]. *)
Record DatabaseConfig := {
  Driver : string;
  DSN : string;
  MaxOpen : Z;
  MaxIdle : Z;
  Lifetime : Z
}.

(** A [MetricConfig] together with its [Interval] field, a [time.Duration]
    in nanoseconds, which the embedding of a poll leaves out. *)
Record TimedMetric := {
  timed : MetricConfig;
  MetricInterval : Z
}.

(** [Config]; the durations are in nanoseconds. *)
Record Config := {
  Port : Z;
  Interval : Z;
  Metrics : list TimedMetric;
  Database : DatabaseConfig
}.

(** [jsonMetricConfig] and [jsonConfig], what the JSON decoder fills. *)
Record jsonMetricConfig := {
  jsonName : string;
  jsonQuery : string;
  jsonMetricInterval : string
}.

Record jsonConfig := {
  jsonPort : Z;
  jsonInterval : string;
  jsonMetrics : list jsonMetricConfig;
  jsonDatabase : DatabaseConfig
}.

(** What opening and decoding the file at a non-empty path comes to. *)
Inductive FileOutcome :=
| NotExist
| OpenError
| DecodeError
| Decoded (jsonCfg : jsonConfig).

(** The two errors [LoadConfig] returns. *)
Inductive LoadError :=
| ErrOpeningConfigFile
| ErrDecodingConfigFile.

(** [time.Second], in nanoseconds. *)
Definition Second : Z := 1000000000.

(** The configuration [LoadConfig] starts from. *)
Definition defaultConfig : Config :=
  {| Port := 8080;
     Interval := 60 * Second;
     Metrics := [];
     Database := {| Driver := "mysql";
                    DSN := "user:password@tcp(host:3306)/database";
                    MaxOpen := 10;
                    MaxIdle := 5;
                    Lifetime := 300 |} |}.

Section Configuration.

(** [time.ParseDuration] and [strconv.Atoi] of the Go library, [None] for
    an error. *)
Variable ParseDuration : string -> option Z.
Variable Atoi : string -> option Z.

(** The body of the loop over [jsonCfg.Metrics]. *)
Definition addMetric (config : Config) (jsonMetric : jsonMetricConfig)
    : Config :=
  let metric := {| Name := jsonName jsonMetric;
                   Query := jsonQuery jsonMetric |} in
  let interval :=
    match ParseDuration (jsonMetricInterval jsonMetric) with
    | Some interval => interval
    | None => Interval config
    end in
  {| Port := Port config;
     Interval := Interval config;
     Metrics := Metrics config
                ++ [{| timed := metric; MetricInterval := interval |}];
     Database := Database config |}.

(** The conversion of the decoded file into the configuration. *)
Definition fromFile (config : Config) (jsonCfg : jsonConfig) : Config :=
  let config := {| Port := jsonPort jsonCfg;
                   Interval := Interval config;
                   Metrics := Metrics config;
                   Database := Database config |} in
  let config :=
    match ParseDuration (jsonInterval jsonCfg) with
    | Some interval => {| Port := Port config;
                          Interval := interval;
                          Metrics := Metrics config;
                          Database := Database config |}
    | None => config
    end in
  let config := {| Port := Port config;
                   Interval := Interval config;
                   Metrics := Metrics config;
                   Database := jsonDatabase jsonCfg |} in
  foldl addMetric config (jsonMetrics jsonCfg).

(** An integer setting after its environment variable: the variable's
    value when it is set and parses, the old value otherwise. *)
Definition envInt (value : string) (old : Z) : Z :=
  if String.eqb value EmptyString then old
  else match Atoi value with Some n => n | None => old end.

(** A string setting after its environment variable. *)
Definition envString (value : string) (old : string) : string :=
  if String.eqb value EmptyString then old else value.

(** The overrides from the environment; [env] is [os.Getenv], which gives
    the empty string for a variable that is not set. *)
Definition fromEnv (env : string -> string) (config : Config) : Config :=
  let database := Database config in
  {| Port := envInt (env "PORT") (Port config);
     Interval :=
       (if String.eqb (env "INTERVAL") EmptyString then Interval config
        else match ParseDuration (env "INTERVAL") with
             | Some i => i
             | None => Interval config
             end);
     Metrics := Metrics config;
     Database :=
       {| Driver := envString (env "DB_DRIVER") (Driver database);
          DSN := envString (env "DB_DSN") (DSN database);
          MaxOpen := envInt (env "DB_MAX_OPEN") (MaxOpen database);
          MaxIdle := envInt (env "DB_MAX_IDLE") (MaxIdle database);
          Lifetime := envInt (env "DB_LIFETIME") (Lifetime database) |} |}.

(** [LoadConfig]: the configuration and the error it returns. *)
Definition LoadConfig (path : string) (file : FileOutcome)
    (env : string -> string) : Config * option LoadError :=
  let config := defaultConfig in
  if String.eqb path EmptyString then (fromEnv env config, None)
  else
    match file with
    | OpenError => (config, Some ErrOpeningConfigFile)
    | NotExist => (fromEnv env config, None)
    | DecodeError => (config, Some ErrDecodingConfigFile)
    | Decoded jsonCfg => (fromEnv env (fromFile config jsonCfg), None)
    end.

(** The metric [LoadConfig] makes of a metric of the file when the interval
    of the file stage is [fallback]. *)
Definition timedMetricOf (fallback : Z) (jsonMetric : jsonMetricConfig)
    : TimedMetric :=
  {| timed := {| Name := jsonName jsonMetric; Query := jsonQuery jsonMetric |};
     MetricInterval :=
       default fallback (ParseDuration (jsonMetricInterval jsonMetric)) |}.

End Configuration.

(** [time.ParseDuration] on the texts the sample configuration uses: four
    durations, and the empty text, which is an error. *)
Definition sampleParseDuration (s : string) : option Z :=
  if String.eqb s "30s" then Some (30 * Second)
  else if String.eqb s "1m" then Some (60 * Second)
  else if String.eqb s "2m" then Some (120 * Second)
  else if String.eqb s "5m" then Some (300 * Second)
  else None.

(** ** Executable instances *)

(** The order in which [map_to_list] lists a map, and its reverse: two
    orders a Go runtime may pick for a range. *)
Definition listed_order (A : Type) : RangeOrder A :=
  {| range := map_to_list; range_perm := fun m => reflexivity _ |}.

Definition reversed_order (A : Type) : RangeOrder A :=
  {| range := fun m => reverse (map_to_list m);
     range_perm := fun m => reverse_Permutation (map_to_list m) |}.

(** A decimal numeral without sign, read digit by digit. *)
Fixpoint parse_digits (acc : Z) (s : string) : option Z :=
  match s with
  | EmptyString => Some acc
  | String c rest =>
      let n := Z.of_N (N_of_ascii c) in
      if (48 <=? n)%Z && (n <=? 57)%Z then parse_digits (10 * acc + (n - 48)) rest
      else None
  end.

Definition parse_decimal (s : string) : option Z :=
  match s with
  | EmptyString => None
  | String "-" EmptyString => None
  | String "-" rest => Z.opp <$> parse_digits 0 rest
  | _ => parse_digits 0 s
  end.

(** The float64 interface on integral values of magnitude below 10^6, the
    range where the conversion is exact, [ParseFloat] of a decimal integer
    numeral is that integer and [%g] prints its plain decimal digits. *)
Definition integral_float64 : Float64Ops :=
  {| float64 := Z;
     float64_of_int64 := fun z => z;
     ParseFloat := parse_decimal;
     format_g := fun z => pretty z;
     float32 := Z;
     float64_of_float32 := fun z => z;
     format_g32 := fun z => pretty z |}.

#[local] Existing Instance integral_float64.

(** ** Sample polls *)

Definition metricNamed (name : string) : MetricConfig :=
  {| Name := name; Query := "SELECT ..." |}.

(** A poll under the listed order, from the store [metrics]. *)
Definition poll (name : string) (result : QueryResult)
    (metrics : gmap string Metric) : gmap string Metric :=
  (runQuery (listed_order Metric) (listed_order string) (metricNamed name)
     result metrics).1.

(** The two rows [status=active, 150] and [status=inactive, 75]. *)
Definition statusRows : QueryResult :=
  Rows ["status"; "value"]
       [Scanned [VBytes "active"; VInt64 150];
        Scanned [VBytes "inactive"; VInt64 75]]
       false.

(** A result with the value column alone, and no row. *)
Definition noRows : QueryResult := Rows ["value"] [] false.

(** A result with the value column alone, and the one row [z]. *)
Definition oneValue (z : Z) : QueryResult :=
  Rows ["value"] [Scanned [VInt64 z]] false.


(** The store with the two series of a family [users]. *)
Definition usersByStatus : gmap string Metric :=
  <["users_status_active" := Labeled (VInt64 150) {["status" := "active"]}]>
    (<["users_status_inactive" :=
         Labeled (VInt64 75) {["status" := "inactive"]}]> ∅).

(** A store with two families of one unlabelled series each. *)
Definition twoFamilies : gmap string Metric :=
  {["orders" := Direct (VInt64 7); "users" := Direct (VInt64 3)]}.

(** A store with one series of two labels. *)
Definition twoLabels : gmap string Metric :=
  {["jobs_env_prod_team_core" :=
      Labeled (VInt64 1) {["env" := "prod"; "team" := "core"]}]}.

(** A store with a direct value under the base name of a labelled key:
    the metric [users] gives a total, the metric [users_by_status] a series
    per status. *)
Definition directUnderGroup : gmap string Metric :=
  {["users" := Direct (VInt64 225);
    "users_by_status_status_active" :=
      Labeled (VInt64 150) {["status" := "active"]}]}.

(** [labelsClean], as a test that runs over the entries of the map. *)
Definition labelsCleanb (labels : gmap string string) : bool :=
  forallb (fun kv => noUnderscore kv.1 && noUnderscore kv.2)
          (map_to_list labels).

(** ** Sample configuration *)

(** The configuration file of the README, with one metric that gives no
    interval. *)
Definition sampleJsonConfig : jsonConfig :=
  {| jsonPort := 8080;
     jsonInterval := "5m";
     jsonMetrics :=
       [ {| jsonName := "active_users"; jsonQuery := "SELECT ...";
            jsonMetricInterval := "1m" |};
         {| jsonName := "users_by_status"; jsonQuery := "SELECT ...";
            jsonMetricInterval := EmptyString |} ];
     jsonDatabase := {| Driver := "mysql";
                        DSN := "user:password@tcp(localhost:3306)/database";
                        MaxOpen := 10; MaxIdle := 5; Lifetime := 300 |} |}.

(** An environment that sets PORT and INTERVAL and nothing else. *)
Definition sampleEnv (variable : string) : string :=
  if String.eqb variable "PORT" then "9090"
  else if String.eqb variable "INTERVAL" then "30s"
  else EmptyString.

(** The two label sets of a sample series, the second listed in the other
    order. *)
Definition prodLabels : gmap string string :=
  {["env" := "prod"; "team" := "core"]}.

(** * Properties *)

(** ** The order of sort.Strings *)

Lemma ascii_compare_Lt_trans a b c :
  Ascii.compare a b = Lt -> Ascii.compare b c = Lt -> Ascii.compare a c = Lt.
Proof.
  unfold Ascii.compare. rewrite !N.compare_lt_iff. apply N.lt_trans.
Qed.

Lemma string_compare_trans a : forall b c,
  String.compare a b <> Gt -> String.compare b c <> Gt ->
  String.compare a c <> Gt.
Proof.
  induction a as [|x a IH]; intros [|y b] [|z c]; simpl; try congruence.
  destruct (Ascii.compare x y) eqn:Hxy; [|intros _|congruence].
  - apply Ascii.compare_eq_iff in Hxy as ->.
    destruct (Ascii.compare y z); [apply IH|congruence|congruence].
  - destruct (Ascii.compare y z) eqn:Hyz; [|intros _|congruence].
    + apply Ascii.compare_eq_iff in Hyz as <-. rewrite Hxy. congruence.
    + rewrite (ascii_compare_Lt_trans x y z Hxy Hyz). congruence.
Qed.

#[global] Instance string_le_trans : Transitive string_le.
Proof.
  intros a b c. unfold string_le, String.leb. intros Hab Hbc.
  pose proof (string_compare_trans a b c) as H.
  destruct (String.compare a b), (String.compare b c), (String.compare a c);
    try done; exfalso; apply H; congruence.
Qed.

#[global] Instance string_le_total : Total string_le.
Proof. intros a b. apply String.leb_total. Qed.

#[global] Instance string_le_antisym : AntiSymm (=) string_le.
Proof. intros a b Hab Hba. by apply String.leb_antisym. Qed.

Lemma sorted_keys_unique (l1 l2 : list string) :
  l1 ≡ₚ l2 -> merge_sort string_le l1 = merge_sort string_le l2.
Proof.
  intros Hp. apply (Sorted_unique string_le).
  - apply Sorted_merge_sort, _.
  - apply Sorted_merge_sort, _.
  - by rewrite !merge_sort_Permutation.
Qed.

(** [hasPrefix prefix k] holds exactly when [k] is [prefix] followed by
    something. *)
Lemma hasPrefix_app prefix rest : hasPrefix prefix (prefix +:+ rest) = true.
Proof.
  unfold hasPrefix. apply andb_true_iff. split.
  - apply Nat.leb_le. induction prefix; simpl; lia.
  - apply String.eqb_eq. induction prefix as [|c p IH]; simpl.
    + by destruct rest.
    + by rewrite IH.
Qed.

Lemma hasPrefix_inv prefix : forall k,
  hasPrefix prefix k = true -> exists rest, k = prefix +:+ rest.
Proof.
  unfold hasPrefix. induction prefix as [|c p IH]; intros k H.
  - by exists k.
  - apply andb_true_iff in H as [Hlen Heq]. apply String.eqb_eq in Heq.
    destruct k as [|d k]; simpl in *; [done|].
    injection Heq as -> Hk.
    destruct (IH k) as [rest ->].
    + apply andb_true_iff. split; [done|]. by apply String.eqb_eq.
    + by exists rest.
Qed.

Section Properties.
Context `{F64 : Float64Ops}.

(** ** The label key *)

Lemma range_keys_perm {A} (ρ1 ρ2 : RangeOrder A) (m : gmap string A) :
  (range ρ1 m).*1 ≡ₚ (range ρ2 m).*1.
Proof. by rewrite !range_perm. Qed.

Lemma elem_of_range {A} (ρ : RangeOrder A) (m : gmap string A) k x :
  (k, x) ∈ range ρ m <-> m !! k = Some x.
Proof. rewrite range_perm. apply elem_of_map_to_list. Qed.

Lemma elem_of_range_keys {A} (ρ : RangeOrder A) (m : gmap string A) k :
  k ∈ (range ρ m).*1 <-> is_Some (m !! k).
Proof.
  rewrite list_elem_of_fmap. split.
  - intros [[k' x] [-> Hin]]. apply elem_of_range in Hin. by exists x.
  - intros [x Hx]. exists (k, x). split; [done|]. by apply elem_of_range.
Qed.

Lemma range_length {A} (ρ : RangeOrder A) (m : gmap string A) :
  length (range ρ m) = size m.
Proof. by rewrite range_perm, length_map_to_list. Qed.

Lemma NoDup_range_keys {A} (ρ : RangeOrder A) (m : gmap string A) :
  NoDup (range ρ m).*1.
Proof. rewrite range_perm. apply NoDup_fst_map_to_list. Qed.

(** C10: the key built from a label map is the same whatever order the
    range over the map visits its keys in: it depends on the map alone. *)
Theorem buildLabelsKey_order_independent (ρ1 ρ2 : RangeOrder string)
    (labels : gmap string string) :
  buildLabelsKey ρ1 labels = buildLabelsKey ρ2 labels.
Proof.
  unfold buildLabelsKey. cbv zeta.
  by rewrite (sorted_keys_unique _ _ (range_keys_perm ρ1 ρ2 labels)).
Qed.

(** ** The store after a poll *)

Lemma foldl_delete_lookup prefix (l : list (string * Metric)) :
  forall (acc : gmap string Metric) k,
  foldl (fun acc kv => if hasPrefix prefix kv.1 then delete kv.1 acc else acc)
        acc l !! k
  = if hasPrefix prefix k && bool_decide (k ∈ l.*1) then None else acc !! k.
Proof.
  induction l as [|[k' x] l IH]; intros acc k.
  - simpl. by rewrite andb_false_r.
  - rewrite fmap_cons. cbn [foldl fst]. rewrite IH.
    destruct (hasPrefix prefix k) eqn:Hk; cbn [andb]; [|
      destruct (hasPrefix prefix k') eqn:Hk'; [|done];
      rewrite lookup_delete_ne; [done|congruence]].
    destruct (decide (k = k')) as [->|Hne].
    + rewrite Hk, lookup_delete_eq.
      rewrite (bool_decide_eq_true_2 (k' ∈ k' :: l.*1)); [|left].
      by destruct (bool_decide _).
    + assert (bool_decide (k ∈ k' :: l.*1) = bool_decide (k ∈ l.*1)) as ->.
      { apply bool_decide_ext. rewrite elem_of_cons. tauto. }
      destruct (bool_decide _); [done|].
      destruct (hasPrefix prefix k'); [|done]. by rewrite lookup_delete_ne.
Qed.

(** What the deletion loop leaves: the keys without the prefix. *)
Lemma removePrefixed_lookup (ρ : RangeOrder Metric) prefix
    (metrics : gmap string Metric) k :
  removePrefixed ρ prefix metrics !! k
  = if hasPrefix prefix k then None else metrics !! k.
Proof.
  unfold removePrefixed. rewrite foldl_delete_lookup.
  destruct (hasPrefix prefix k); simpl; [|done].
  case_bool_decide as Hin; [done|].
  rewrite elem_of_range_keys in Hin.
  apply eq_None_not_Some in Hin. by rewrite Hin.
Qed.

Lemma findValueIdx_None (columns : list string) :
  "value" ∉ columns -> findValueIdx columns = None.
Proof.
  induction columns as [|col rest IH]; intros Hnot; simpl; [done|].
  apply not_elem_of_cons in Hnot as [Hne Hrest].
  destruct (String.eqb_spec col "value") as [->|_]; [done|].
  by rewrite IH.
Qed.

Lemma findValueIdx_Some (columns : list string) (i : nat) :
  findValueIdx columns = Some i ->
  columns !! i = Some "value" ∧
  forall j, (j < i)%nat -> columns !! j <> Some "value".
Proof.
  revert i. induction columns as [|col rest IH]; intros i; simpl; [done|].
  destruct (String.eqb_spec col "value") as [->|Hne].
  - intros [= <-]. split; [done|]. lia.
  - destruct (findValueIdx rest) as [i'|]; simpl; [|done].
    intros [= <-]. destruct (IH i' eq_refl) as [Hi Hfirst].
    split; [done|]. intros [|j] Hj; simpl; [congruence|]. apply Hfirst. lia.
Qed.

(** C3: when no column of the result is named exactly [value], the poll
    logs the missing column and leaves every entry of the store as it was. *)
Theorem runQuery_without_value_column (ρ : RangeOrder Metric)
    (ρl : RangeOrder string) metric columns rows rowsErr
    (metrics : gmap string Metric) :
  "value" ∉ columns ->
  runQuery ρ ρl metric (Rows columns rows rowsErr) metrics
  = (metrics, [LogMissingValueColumn (Name metric)]).
Proof.
  intros Hnot. unfold runQuery. by rewrite findValueIdx_None.
Qed.

Lemma storeRow_skips_failed ρl metric columns valueIdx rows :
  forall (metrics : gmap string Metric) log log',
  (foldl (storeRow ρl metric columns valueIdx) (metrics, log) rows).1
  = (foldl (storeRow ρl metric columns valueIdx) (metrics, log')
       (filter (fun r => isScanned r = true) rows)).1.
Proof.
  induction rows as [|row rows IH]; intros metrics log log'; [done|].
  destruct row as [|values].
  - rewrite filter_cons_False by done. simpl. apply IH.
  - rewrite filter_cons_True by done. simpl.
    destruct (0 <? size _)%nat; apply IH.
Qed.

(** A poll on a result is a poll on the successfully scanned rows of that
    result alone, without a cursor error: the two leave the same store. *)
Lemma runQuery_keeps_scanned_rows (ρ : RangeOrder Metric)
    (ρl : RangeOrder string) metric columns rows rowsErr
    (metrics : gmap string Metric) :
  (runQuery ρ ρl metric (Rows columns rows rowsErr) metrics).1
  = (runQuery ρ ρl metric
       (Rows columns (filter (fun r => isScanned r = true) rows) false)
       metrics).1.
Proof.
  unfold runQuery. destruct (findValueIdx columns) as [valueIdx|]; [|done].
  cbv zeta.
  pose proof (storeRow_skips_failed ρl metric columns valueIdx rows
                (removePrefixed ρ (Name metric +:+ "_") metrics) [] []) as H.
  destruct (foldl _ _ rows) as [m1 l1], (foldl _ _ (filter _ rows)) as [m2 l2].
  done.
Qed.

Lemma hasPrefix_longer prefix k :
  (String.length k < String.length prefix)%nat -> hasPrefix prefix k = false.
Proof.
  intros Hlt. unfold hasPrefix. apply andb_false_iff. left.
  apply Nat.leb_gt, Hlt.
Qed.

Lemma length_append (a b : string) :
  String.length (a +:+ b) = (String.length a + String.length b)%nat.
Proof. induction a as [|c a IH]; simpl; [done|]. by rewrite IH. Qed.

(** A poll that finds the value column and no row: the keys that start
    with the metric's name and an underscore are gone, every other key,
    the metric's own name among them, keeps its entry. *)
Lemma runQuery_no_rows_lookup (ρ : RangeOrder Metric) (ρl : RangeOrder string)
    metric (columns : list string) rowsErr (metrics : gmap string Metric) k :
  "value" ∈ columns ->
  (runQuery ρ ρl metric (Rows columns [] rowsErr) metrics).1 !! k
  = if hasPrefix (Name metric +:+ "_") k then None else metrics !! k.
Proof.
  intros Hin. unfold runQuery.
  destruct (findValueIdx columns) as [valueIdx|] eqn:Hidx.
  - cbn [foldl fst]. apply removePrefixed_lookup.
  - exfalso. revert Hin Hidx. clear. induction columns as [|c rest IH]; simpl.
    + intros Hin. by apply elem_of_nil in Hin.
    + intros Hin. destruct (String.eqb_spec c "value") as [->|Hne]; [done|].
      apply elem_of_cons in Hin as [Heq|Hin]; [congruence|].
      destruct (findValueIdx rest); [done|]. intros _. by apply IH.
Qed.

Lemma runQuery_no_rows_keeps_own_name (ρ : RangeOrder Metric)
    (ρl : RangeOrder string) metric (columns : list string) rowsErr
    (metrics : gmap string Metric) :
  "value" ∈ columns ->
  (runQuery ρ ρl metric (Rows columns [] rowsErr) metrics).1 !! Name metric
  = metrics !! Name metric.
Proof.
  intros Hin. rewrite runQuery_no_rows_lookup by done.
  rewrite hasPrefix_longer; [done|]. rewrite length_append. simpl. lia.
Qed.

(** ** Labels of a row *)

Lemma rowLabelsFrom_other (columns : list string) valueIdx values col :
  forall i0 (acc : gmap string string),
  (forall j c, columns !! j = Some c -> (i0 + j)%nat <> valueIdx -> c <> col) ->
  rowLabelsFrom i0 columns valueIdx values acc !! col = acc !! col.
Proof.
  induction columns as [|c rest IH]; intros i0 acc Hother; simpl; [done|].
  rewrite IH.
  - destruct (Nat.eqb_spec i0 valueIdx) as [_|Hne]; [done|].
    apply lookup_insert_ne, (Hother 0%nat); [done|lia].
  - intros j c' Hj Hne. apply (Hother (S j)); [done|lia].
Qed.

Lemma rowLabelsFrom_lookup (columns : list string) valueIdx values col :
  forall i i0 (acc : gmap string string),
  columns !! i = Some col -> (i0 + i)%nat <> valueIdx ->
  (forall j, (i < j)%nat -> (i0 + j)%nat <> valueIdx ->
             columns !! j <> Some col) ->
  rowLabelsFrom i0 columns valueIdx values acc !! col
  = Some (labelValue (valueAt values (i0 + i))).
Proof.
  induction columns as [|c rest IH]; intros i i0 acc Hi Hne Hlast; [done|].
  destruct i as [|i]; simpl in Hi |- *.
  - injection Hi as ->. rewrite Nat.add_0_r in *.
    rewrite rowLabelsFrom_other.
    + destruct (Nat.eqb_spec i0 valueIdx); [done|]. apply lookup_insert_eq.
    + intros j c' Hj Hj' ->. apply (Hlast (S j)); [lia|lia|done].
  - replace (i0 + S i)%nat with (S i0 + i)%nat in * by lia.
    apply IH; [done|done|].
    intros j Hlt Hj. apply (Hlast (S j)); lia.
Qed.

(** C9: a scanned row with a column [col] at an index [i] other than the
    value column's is stored with the label [col] (the last column of that
    name wins), whose text is [null] for a NULL, the bytes as text for a
    byte column, the string for a string column, and the default text of
    the value for every other type. *)
Theorem scanned_row_labels (ρl : RangeOrder string) metric
    (columns : list string) valueIdx values i col
    (metrics : gmap string Metric) log :
  columns !! i = Some col -> i <> valueIdx ->
  (forall j, (i < j)%nat -> j <> valueIdx -> columns !! j <> Some col) ->
  let labels := rowLabels columns valueIdx values in
  (storeRow ρl metric columns valueIdx (metrics, log) (Scanned values)).1
    !! ((Name metric +:+ "_") +:+ buildLabelsKey ρl labels)
  = Some (Labeled (valueAt values valueIdx) labels)
  ∧ labels !! col
    = Some (match valueAt values i with
            | VNil => "null"
            | VBytes b => b
            | VString s => s
            | v => Sprintf_v v
            end).
Proof.
  intros Hi Hne Hlast labels.
  assert (labels !! col = Some (labelValue (valueAt values i))) as Hcol.
  { apply (rowLabelsFrom_lookup columns valueIdx values col i 0 ∅); done. }
  split.
  - unfold storeRow. fold labels.
    assert ((0 <? size labels)%nat = true) as ->.
    { apply Nat.ltb_lt. destruct (size labels) eqn:Hsize; [|lia].
      apply map_size_empty_iff in Hsize. rewrite Hsize in Hcol. done. }
    apply lookup_insert_eq.
  - rewrite Hcol. by destruct (valueAt values i).
Qed.

(** ** The encoders under two range orders *)

Lemma metricBlocks_perm (ρ1 ρ2 : RangeOrder Metric) (ρl : RangeOrder string)
    (metrics : gmap string Metric) :
  metricBlocks ρ1 ρl metrics ≡ₚ metricBlocks ρ2 ρl metrics.
Proof.
  unfold metricBlocks. apply Permutation_map. by rewrite !range_perm.
Qed.

Lemma directOf_none b (l : list (string * Metric)) :
  (forall v', (b, Direct v') ∉ l) -> directOf b l = [].
Proof.
  induction l as [|[k e] l IH]; intros Hnone; [done|].
  unfold directOf in *. cbn [omap list_omap fst snd].
  assert (forall v', (b, Direct v') ∉ l) as Hl.
  { intros v' Hin. apply (Hnone v'). by right. }
  destruct e as [v|v labels]; [|by apply IH].
  destruct (decide (k = b)) as [->|]; [|by apply IH].
  exfalso. apply (Hnone v). left.
Qed.

Lemma directOf_absent b (l : list (string * Metric)) :
  b ∉ l.*1 -> directOf b l = [].
Proof.
  intros Hb. apply directOf_none. intros v' Hin. apply Hb.
  apply list_elem_of_fmap. by exists (b, Direct v').
Qed.

Lemma directOf_length b (l : list (string * Metric)) :
  NoDup l.*1 -> (length (directOf b l) <= 1)%nat.
Proof.
  induction l as [|[k e] l IH]; intros Hnd; [simpl; lia|].
  rewrite fmap_cons in Hnd. apply NoDup_cons in Hnd as [Hk Hnd].
  unfold directOf in *. cbn [omap list_omap fst snd].
  destruct e as [v|v labels]; [|by apply IH].
  destruct (decide (k = b)) as [->|]; [|by apply IH].
  fold (directOf b l). rewrite (directOf_absent b l Hk). simpl. lia.
Qed.

Lemma groupOf_snoc b (l : list (string * Metric)) k e :
  groupOf b (l ++ [(k, e)])
  = groupOf b l ++ match e with
                   | Labeled v labels =>
                       if decide (baseName k = b) then [(v, labels)] else []
                   | Direct _ => []
                   end.
Proof.
  unfold groupOf. rewrite omap_app. f_equal. cbn [omap list_omap fst snd].
  destruct e; [done|]. by destruct (decide _).
Qed.

Lemma directOf_snoc b (l : list (string * Metric)) k e :
  directOf b (l ++ [(k, e)])
  = directOf b l ++ match e with
                    | Direct v => if decide (k = b) then [v] else []
                    | Labeled _ _ => []
                    end.
Proof.
  unfold directOf. rewrite omap_app. f_equal. cbn [omap list_omap fst snd].
  destruct e; [|done]. by destruct (decide _).
Qed.

(** The response after the loop, key by key. *)
Lemma groupMetric_fold_lookup (l : list (string * Metric)) b :
  NoDup l.*1 ->
  (forall k v labels v',
     (k, Labeled v labels) ∈ l -> (baseName k, Direct v') ∉ l) ->
  foldl groupMetric ∅ l !! b = jsonEntry (directOf b l) (groupOf b l).
Proof.
  induction l as [|[k e] l IH] using rev_ind; intros Hnd Hapart; [done|].
  rewrite fmap_app in Hnd. apply NoDup_app in Hnd as (Hnd & Hk & _).
  assert (k ∉ l.*1) as Hfresh.
  { intros Hin. apply (Hk k Hin). left. }
  assert (foldl groupMetric ∅ l !! b = jsonEntry (directOf b l) (groupOf b l))
    as Hl.
  { apply IH; [done|]. intros k' v labels v' Hin Hin'.
    apply (Hapart k' v labels v'); apply elem_of_app; by left. }
  rewrite foldl_snoc, directOf_snoc, groupOf_snoc.
  set (r := foldl groupMetric ∅ l) in *.
  unfold groupMetric. cbn [fst snd].
  destruct e as [v|v labels].
  - rewrite !app_nil_r. destruct (decide (k = b)) as [->|Hne].
    + rewrite lookup_insert_eq. by rewrite (directOf_absent b l Hfresh).
    + rewrite lookup_insert_ne by done. by rewrite app_nil_r.
  - rewrite !app_nil_r. destruct (decide (baseName k = b)) as [Hb|Hne].
    + subst b. rewrite lookup_insert_eq, Hl. rewrite directOf_none.
      * cbn [jsonEntry]. destruct (groupOf (baseName k) l); reflexivity.
      * intros v' Hin. apply (Hapart k v labels v').
        -- apply elem_of_app. right. left.
        -- apply elem_of_app. by left.
    + rewrite lookup_insert_ne by done. by rewrite app_nil_r.
Qed.

Lemma groupsApartb_true (metrics : gmap string Metric) :
  groupsApartb metrics = true -> groupsApart metrics.
Proof.
  unfold groupsApartb. rewrite forallb_forall.
  intros Hall k v labels v' Hk Hb.
  specialize (Hall (k, Labeled v labels)). cbn [fst snd] in Hall.
  rewrite Hb in Hall. discriminate Hall.
  apply list_elem_of_In. by apply elem_of_map_to_list.
Qed.

Lemma handleMetricsJSON_lookup (ρ : RangeOrder Metric)
    (metrics : gmap string Metric) b :
  groupsApart metrics ->
  handleMetricsJSON ρ metrics !! b
  = jsonEntry (directOf b (range ρ metrics)) (groupOf b (range ρ metrics)).
Proof.
  intros Hapart. apply groupMetric_fold_lookup.
  - apply NoDup_range_keys.
  - intros k v labels v' Hin Hin'.
    apply elem_of_range in Hin, Hin'. by apply (Hapart k v labels v').
Qed.


End Properties.

(** * The functions on sample polls *)

Lemma runQuery_without_value_column_witness :
  runQuery (listed_order Metric) (listed_order string) (metricNamed "users")
    (Rows ["status"; "Value"] [Scanned [VBytes "active"; VInt64 150]] false)
    usersByStatus
  = (usersByStatus, [LogMissingValueColumn "users"]).
Proof.
  apply runQuery_without_value_column.
  intros Hin.
  repeat (apply elem_of_cons in Hin as [Hin|Hin]; [discriminate|]).
  by apply elem_of_nil in Hin.
Defined.

Lemma scanned_row_labels_witness :
  (storeRow (listed_order string) (metricNamed "users")
     ["status"; "value"; "region"] 1
     (∅, []) (Scanned [VNil; VInt64 5; VBytes "eu"])).1
    !! "users_region_eu_status_null"
  = Some (Labeled (VInt64 5) {["region" := "eu"; "status" := "null"]})
  ∧ rowLabels ["status"; "value"; "region"] 1 [VNil; VInt64 5; VBytes "eu"]
      !! "status" = Some "null".
Proof.
  apply (scanned_row_labels (listed_order string) (metricNamed "users")
           ["status"; "value"; "region"] 1%nat
           [VNil; VInt64 5; VBytes "eu"] 0%nat "status" ∅ []).
  - reflexivity.
  - lia.
  - intros [|[|[|j]]] Hlt Hne; simpl; first [lia | discriminate].
Defined.

(** The sample store is what one poll of [users] leaves. *)
Lemma usersByStatus_polled : poll "users" statusRows ∅ = usersByStatus.
Proof. reflexivity. Qed.

Lemma usersByStatus_groupsApart : groupsApart usersByStatus.
Proof. apply groupsApartb_true. by vm_compute. Qed.

(** C1 on a sample: a poll of the metric [users] deletes the series that
    polls of the metric [users_by_status] stored, because their keys start
    with [users_]. *)
Lemma poll_deletes_longer_named_family :
  let before := poll "users_by_status" statusRows ∅ in
  let after := poll "users" (oneValue 10) before in
  before !! "users_by_status_status_active"
  = Some (Labeled (VInt64 150) {["status" := "active"]})
  ∧ before !! "users_by_status_status_inactive"
    = Some (Labeled (VInt64 75) {["status" := "inactive"]})
  ∧ after = {["users" := Direct (VInt64 10)]}.
Proof. repeat split; reflexivity. Qed.

(** C2 on a sample: after a poll that stored an unlabelled value, a poll of
    the same metric that returns no row leaves that value in the store. *)
Lemma empty_poll_keeps_unlabelled_value :
  let before := poll "queue_depth" (oneValue 42) ∅ in
  let after := poll "queue_depth" noRows before in
  before = {["queue_depth" := Direct (VInt64 42)]}
  ∧ after = {["queue_depth" := Direct (VInt64 42)]}.
Proof. repeat split; reflexivity. Qed.

(** C4 on a sample: for the family [users] with two labelled series the
    handler writes the HELP and TYPE lines twice, once before each sample. *)
Lemma handleMetrics_repeats_help_and_type :
  handleMetrics (listed_order Metric) (listed_order string)
    (poll "users" statusRows ∅)
  = [ "# HELP users Value from custom SQL query" +:+ nl;
      "# TYPE users gauge" +:+ nl;
      "users{status=" +:+ dquote +:+ "inactive" +:+ dquote +:+ "} 75" +:+ nl;
      "# HELP users Value from custom SQL query" +:+ nl;
      "# TYPE users gauge" +:+ nl;
      "users{status=" +:+ dquote +:+ "active" +:+ dquote +:+ "} 150" +:+ nl ].
Proof. repeat split; reflexivity. Qed.

(** C5 on a sample: the unlabelled family [active_users] with the value 42
    is written by the Prometheus handler under the name [active]; the JSON
    response keeps the whole name. *)
Lemma handleMetrics_cuts_name_at_underscore :
  let store := poll "active_users" (oneValue 42) ∅ in
  store = {["active_users" := Direct (VInt64 42)]}
  ∧ handleMetrics (listed_order Metric) (listed_order string) store
    = [ "# HELP active Value from custom SQL query" +:+ nl;
        "# TYPE active gauge" +:+ nl;
        "active 42" +:+ nl ]
  ∧ handleMetricsJSON (listed_order Metric) store
    = {["active_users" := JDirect (VInt64 42)]}.
Proof. repeat split; reflexivity. Qed.

(** C6 on a sample: two rows of one result with different label sets get
    the same store key, and the store keeps the second row alone. *)
Lemma distinct_label_sets_share_a_key :
  let first : gmap string string :=
    {["env" := "prod_team_a"; "team" := "b"]} in
  let second : gmap string string :=
    {["env" := "prod"; "team" := "a_team_b"]} in
  first <> second
  ∧ buildLabelsKey (listed_order string) first = "env_prod_team_a_team_b"
  ∧ buildLabelsKey (listed_order string) second = "env_prod_team_a_team_b"
  ∧ poll "jobs"
      (Rows ["env"; "team"; "value"]
         [Scanned [VBytes "prod_team_a"; VBytes "b"; VInt64 1];
          Scanned [VBytes "prod"; VBytes "a_team_b"; VInt64 2]]
         false) ∅
    = {["jobs_env_prod_team_a_team_b" := Labeled (VInt64 2) second]}.
Proof.
  cbv zeta. split; [|repeat split; reflexivity].
  assert (({["env" := "prod_team_a"; "team" := "b"]} : gmap string string)
            !! "team"
          <> ({["env" := "prod"; "team" := "a_team_b"]} : gmap string string)
               !! "team") as Hne
    by (apply (bool_decide_eq_false_1 (_ = _)); by vm_compute).
  intros H. apply Hne. by rewrite H.
Qed.

(** * Further properties of a poll *)

Section PollProperties.
Context `{F64 : Float64Ops}.

Lemma storeRow_Scanned (ρl : RangeOrder string) metric columns valueIdx
    (metrics : gmap string Metric) log values :
  storeRow ρl metric columns valueIdx (metrics, log) (Scanned values)
  = (<[rowKey ρl metric columns valueIdx values :=
         rowEntry columns valueIdx values]> metrics, log).
Proof.
  unfold storeRow, rowKey, seriesKey, rowEntry. cbv zeta.
  by destruct (0 <? size _)%nat.
Qed.

(** A row's key is the metric's name or starts with the name and an
    underscore. *)
Lemma rowKey_own (ρl : RangeOrder string) metric columns valueIdx values :
  rowKey ρl metric columns valueIdx values = Name metric
  ∨ hasPrefix (Name metric +:+ "_")
      (rowKey ρl metric columns valueIdx values) = true.
Proof.
  unfold rowKey, seriesKey. destruct (0 <? size _)%nat; [right|by left].
  apply hasPrefix_app.
Qed.

Lemma storeRows_other (ρl : RangeOrder string) metric columns valueIdx k rows :
  hasPrefix (Name metric +:+ "_") k = false -> k <> Name metric ->
  forall (metrics : gmap string Metric) log,
  (foldl (storeRow ρl metric columns valueIdx) (metrics, log) rows).1 !! k
  = metrics !! k.
Proof.
  intros Hpre Hne. induction rows as [|row rows IH]; intros metrics log;
    [done|].
  cbn [foldl]. destruct row as [|values].
  - apply IH.
  - rewrite storeRow_Scanned, IH. apply lookup_insert_ne.
    destruct (rowKey_own ρl metric columns valueIdx values) as [Hk|Hk];
      congruence.
Qed.

Lemma runQuery_other_keys (ρ : RangeOrder Metric)
    (ρl : RangeOrder string) metric result (metrics : gmap string Metric) k :
  hasPrefix (Name metric +:+ "_") k = false -> k <> Name metric ->
  (runQuery ρ ρl metric result metrics).1 !! k = metrics !! k.
Proof.
  intros Hpre Hne. unfold runQuery.
  destruct result as [| |columns rows rowsErr]; [done|done|].
  destruct (findValueIdx columns) as [valueIdx|]; [|done].
  cbv zeta.
  pose proof (storeRows_other ρl metric columns valueIdx k rows Hpre Hne
                (removePrefixed ρ (Name metric +:+ "_") metrics) []) as H.
  destruct (foldl _ _ rows) as [m l]. cbn [fst] in *.
  by rewrite H, removePrefixed_lookup, Hpre.
Qed.

(** X1: frame of a poll: whatever the database returns, a poll of a metric
    leaves every key untouched that is neither the metric's name nor starts
    with the name followed by an underscore. *)
Theorem runQuery_touches_own_keys_only (ρ : RangeOrder Metric)
    (ρl : RangeOrder string) metric result (metrics : gmap string Metric) k :
  hasPrefix (Name metric +:+ "_") k = false -> k <> Name metric ->
  (runQuery ρ ρl metric result metrics).1 !! k = metrics !! k.
Proof. apply runQuery_other_keys. Qed.

Lemma storeRows_origin (ρl : RangeOrder string) metric columns valueIdx k e
    rows :
  forall (metrics : gmap string Metric) log,
  (foldl (storeRow ρl metric columns valueIdx) (metrics, log) rows).1 !! k
  = Some e ->
  metrics !! k = Some e
  ∨ exists values, Scanned values ∈ rows
      ∧ k = rowKey ρl metric columns valueIdx values
      ∧ e = rowEntry columns valueIdx values.
Proof.
  induction rows as [|row rows IH]; intros metrics log Hk; [by left|].
  cbn [foldl] in Hk. destruct row as [|values].
  - destruct (IH _ _ Hk) as [Hold|(values & Hin & ? & ?)]; [by left|].
    right. exists values. split; [by right|done].
  - rewrite storeRow_Scanned in Hk.
    destruct (IH _ _ Hk) as [Hold|(values' & Hin & ? & ?)].
    + apply lookup_insert_Some in Hold as [[<- <-]|[_ Hold]]; [|by left].
      right. exists values. split; [left|done].
    + right. exists values'. split; [by right|done].
Qed.

(** X3: no stale labelled series: after a poll that found the value column,
    every entry under a key that starts with the metric's name and an
    underscore was written by a scanned row of this very poll. *)
Theorem runQuery_prefixed_entries_are_fresh (ρ : RangeOrder Metric)
    (ρl : RangeOrder string) metric columns valueIdx rows rowsErr
    (metrics : gmap string Metric) k e :
  findValueIdx columns = Some valueIdx ->
  hasPrefix (Name metric +:+ "_") k = true ->
  (runQuery ρ ρl metric (Rows columns rows rowsErr) metrics).1 !! k = Some e ->
  exists values, Scanned values ∈ rows
    ∧ k = rowKey ρl metric columns valueIdx values
    ∧ e = rowEntry columns valueIdx values.
Proof.
  intros Hidx Hpre. unfold runQuery. rewrite Hidx. cbv zeta.
  pose proof (storeRows_origin ρl metric columns valueIdx k e rows
                (removePrefixed ρ (Name metric +:+ "_") metrics) []) as H.
  destruct (foldl _ _ rows) as [m l]. cbn [fst] in *.
  intros Hk. destruct (H Hk) as [Hold|Hrow]; [|done].
  by rewrite removePrefixed_lookup, Hpre in Hold.
Qed.

Lemma storeRows_last (ρl : RangeOrder string) metric columns valueIdx values
    post :
  (forall values', Scanned values' ∈ post ->
     rowKey ρl metric columns valueIdx values'
     <> rowKey ρl metric columns valueIdx values) ->
  forall (metrics : gmap string Metric) log,
  metrics !! rowKey ρl metric columns valueIdx values
  = Some (rowEntry columns valueIdx values) ->
  (foldl (storeRow ρl metric columns valueIdx) (metrics, log) post).1
    !! rowKey ρl metric columns valueIdx values
  = Some (rowEntry columns valueIdx values).
Proof.
  induction post as [|row post IH]; intros Hlater metrics log Hk; [done|].
  cbn [foldl]. destruct row as [|values'].
  - apply IH; [|done]. intros v Hin. apply Hlater. by right.
  - rewrite storeRow_Scanned. apply IH.
    + intros v Hin. apply Hlater. by right.
    + rewrite lookup_insert_ne; [done|]. apply Hlater. left.
Qed.

(** X4: the last row under a key wins: a scanned row is in the store after the
    poll, with its own value and labels, when no later scanned row of the
    result gets the same key. *)
Theorem runQuery_last_row_of_a_key_wins (ρ : RangeOrder Metric)
    (ρl : RangeOrder string) metric columns valueIdx pre values post rowsErr
    (metrics : gmap string Metric) :
  findValueIdx columns = Some valueIdx ->
  (forall values', Scanned values' ∈ post ->
     rowKey ρl metric columns valueIdx values'
     <> rowKey ρl metric columns valueIdx values) ->
  (runQuery ρ ρl metric
     (Rows columns (pre ++ Scanned values :: post) rowsErr) metrics).1
    !! rowKey ρl metric columns valueIdx values
  = Some (rowEntry columns valueIdx values).
Proof.
  intros Hidx Hlater. unfold runQuery. rewrite Hidx. cbv zeta.
  rewrite foldl_app. cbn [foldl].
  destruct (foldl _ _ pre) as [m0 l0]. rewrite storeRow_Scanned.
  pose proof (storeRows_last ρl metric columns valueIdx values post Hlater
                (<[rowKey ρl metric columns valueIdx values :=
                     rowEntry columns valueIdx values]> m0) l0
                (lookup_insert_eq _ _ _)) as H.
  destruct (foldl _ _ post) as [m l]. done.
Qed.

(** X5: a poll that finds the value column and no row deletes the keys that
    start with the metric's name and an underscore, and nothing else: the
    store that is left is the old store without these keys, whatever order
    the deletion loop visits the keys in. *)
Theorem runQuery_without_rows (ρ : RangeOrder Metric) (ρl : RangeOrder string)
    metric (columns : list string) rowsErr (metrics : gmap string Metric) :
  "value" ∈ columns ->
  (runQuery ρ ρl metric (Rows columns [] rowsErr) metrics).1
  = filter (fun kv => hasPrefix (Name metric +:+ "_") kv.1 = false) metrics.
Proof.
  intros Hin. apply map_eq. intros k.
  rewrite runQuery_no_rows_lookup by done.
  destruct (hasPrefix (Name metric +:+ "_") k) eqn:Hk.
  - symmetry. apply map_lookup_filter_None. right. intros x _. cbn. congruence.
  - destruct (metrics !! k) as [x|] eqn:Hx; symmetry.
    + by apply map_lookup_filter_Some.
    + apply map_lookup_filter_None. by left.
Qed.

Lemma findValueIdx_is_Some (columns : list string) :
  "value" ∈ columns -> is_Some (findValueIdx columns).
Proof.
  induction columns as [|c rest IH]; intros Hin.
  - by apply elem_of_nil in Hin.
  - cbn [findValueIdx]. destruct (String.eqb_spec c "value") as [Heq|Hne];
      [by eexists|].
    apply elem_of_cons in Hin as [Heq|Hin]; [congruence|].
    destruct (IH Hin) as [i ->]. by eexists.
Qed.

(** X9: the value column is the first column named [value]: the index the poll
    uses is the one that holds that name with no column of that name before
    it (a later column named [value] is a label like any other). *)
Theorem findValueIdx_first_value_column (columns : list string) (i : nat) :
  findValueIdx columns = Some i
  <-> columns !! i = Some "value"
      ∧ forall j, (j < i)%nat -> columns !! j <> Some "value".
Proof.
  split; [apply findValueIdx_Some|].
  revert i. induction columns as [|c rest IH]; intros i [Hi Hfirst]; [done|].
  cbn [findValueIdx]. destruct (String.eqb_spec c "value") as [Heq|Hne].
  - destruct i as [|i]; [done|]. exfalso. apply (Hfirst 0%nat); [lia|].
    by rewrite Heq.
  - destruct i as [|i]; [simpl in Hi; congruence|].
    rewrite (IH i); [done|]. split; [done|].
    intros j Hj. apply (Hfirst (S j)). lia.
Qed.

Lemma rowLabelsFrom_is_Some (columns : list string) valueIdx values k :
  forall i0 (acc : gmap string string),
  is_Some (rowLabelsFrom i0 columns valueIdx values acc !! k)
  <-> is_Some (acc !! k)
      ∨ exists j, columns !! j = Some k ∧ (i0 + j)%nat <> valueIdx.
Proof.
  induction columns as [|c rest IH]; intros i0 acc; cbn [rowLabelsFrom].
  - split; [by left|]. intros [H|(j & Hj & _)]; [done|]. by destruct j.
  - rewrite IH. destruct (Nat.eqb_spec i0 valueIdx) as [Heq|Hne].
    + split.
      * intros [H|(j & Hj & Hne)]; [by left|right].
        exists (S j). split; [done|lia].
      * intros [H|(j & Hj & Hne)]; [by left|right].
        destruct j as [|j]; [lia|]. exists j. split; [done|lia].
    + rewrite lookup_insert_is_Some. split.
      * intros [[->|[_ H]]|(j & Hj & Hne')].
        -- right. exists 0%nat. split; [done|lia].
        -- by left.
        -- right. exists (S j). split; [done|lia].
      * intros [H|(j & Hj & Hne')].
        -- left. destruct (decide (c = k)); [by left|by right].
        -- destruct j as [|j].
           ++ left. left. simpl in Hj. congruence.
           ++ right. exists j. split; [done|lia].
Qed.

(** X10: the labels of a row are the columns other than the value column: a name
    is a label of the row exactly when some column at an index other than
    the value column's bears it. *)
Theorem rowLabels_are_the_other_columns (columns : list string) valueIdx
    values k :
  is_Some (rowLabels columns valueIdx values !! k)
  <-> exists j, columns !! j = Some k ∧ j <> valueIdx.
Proof.
  unfold rowLabels. rewrite rowLabelsFrom_is_Some, lookup_empty.
  split.
  - intros [H|H]; [by destruct H|done].
  - intros H. by right.
Qed.

(** X11: a row is stored under the bare name of the metric, as a direct value,
    exactly when the value column is the only column of the result. *)
Theorem rowKey_bare_iff_value_alone (ρl : RangeOrder string) metric
    (columns : list string) valueIdx values :
  findValueIdx columns = Some valueIdx ->
  (rowKey ρl metric columns valueIdx values = Name metric
   ∧ rowEntry columns valueIdx values = Direct (valueAt values valueIdx))
  <-> columns = ["value"].
Proof.
  intros Hidx. apply findValueIdx_Some in Hidx as [Hval Hfirst].
  unfold rowKey, seriesKey, rowEntry. cbv zeta.
  destruct (size (rowLabels columns valueIdx values)) as [|n] eqn:Hsize;
    cbn [Nat.ltb Nat.leb].
  - apply map_size_empty_iff in Hsize. split; [intros _|done].
    assert (forall j c, columns !! j = Some c -> j = valueIdx) as Hall.
    { intros j c Hj. destruct (decide (j = valueIdx)) as [|Hne]; [done|].
      assert (is_Some (rowLabels columns valueIdx values !! c)) as Hc.
      { apply rowLabels_are_the_other_columns. by exists j. }
      rewrite Hsize, lookup_empty in Hc. by destruct Hc. }
    destruct columns as [|c0 [|c1 rest]]; [done| |].
    + rewrite <-(Hall 0%nat c0 eq_refl) in Hval. simpl in Hval. congruence.
    + pose proof (Hall 0%nat c0 eq_refl). pose proof (Hall 1%nat c1 eq_refl).
      lia.
  - split; [intros [_ [=]]|].
    intros ->. exfalso.
    assert (valueIdx = 0%nat) as ->.
    { clear -Hval. destruct valueIdx as [|[|?]]; [done|discriminate Hval..]. }
    unfold rowLabels in Hsize. cbn [rowLabelsFrom Nat.eqb] in Hsize.
    by rewrite map_size_empty in Hsize.
Qed.

Lemma storeRows_log (ρl : RangeOrder string) metric columns valueIdx rows :
  forall (metrics : gmap string Metric) log,
  (foldl (storeRow ρl metric columns valueIdx) (metrics, log) rows).2
  = log ++ map (fun _ => LogScanError (Name metric))
             (filter (fun r => isScanned r = false) rows).
Proof.
  induction rows as [|row rows IH]; intros metrics log.
  - simpl. by rewrite app_nil_r.
  - cbn [foldl]. destruct row as [|values].
    + rewrite filter_cons_True by done. cbn [storeRow]. rewrite IH.
      by rewrite <-app_assoc.
    + rewrite filter_cons_False by done. rewrite storeRow_Scanned. apply IH.
Qed.

(** X8: the log of a poll that finds the value column: one scan error line per
    row that failed to scan, then the cursor error line if the cursor
    reported one, then in every case the line that reports the update. *)
Theorem runQuery_log (ρ : RangeOrder Metric) (ρl : RangeOrder string) metric
    (columns : list string) rows rowsErr (metrics : gmap string Metric) :
  "value" ∈ columns ->
  (runQuery ρ ρl metric (Rows columns rows rowsErr) metrics).2
  = pollLog (Name metric) rows rowsErr.
Proof.
  intros Hin. destruct (findValueIdx_is_Some columns Hin) as [valueIdx Hidx].
  unfold runQuery, pollLog. rewrite Hidx. cbv zeta.
  pose proof (storeRows_log ρl metric columns valueIdx rows
                (removePrefixed ρ (Name metric +:+ "_") metrics) []) as H.
  destruct (foldl _ _ rows) as [m l]. cbn [snd] in *. subst l. cbn [app].
  destruct rowsErr; by rewrite <-?app_assoc.
Qed.

Lemma removePrefixed_filter (ρ : RangeOrder Metric) prefix
    (metrics : gmap string Metric) :
  removePrefixed ρ prefix metrics
  = filter (fun kv => hasPrefix prefix kv.1 = false) metrics.
Proof.
  apply map_eq. intros k. rewrite removePrefixed_lookup.
  destruct (hasPrefix prefix k) eqn:Hk.
  - symmetry. apply map_lookup_filter_None. right. intros x _. cbn. congruence.
  - destruct (metrics !! k) as [x|] eqn:Hx; symmetry.
    + by apply map_lookup_filter_Some.
    + apply map_lookup_filter_None. by left.
Qed.

Lemma storeRows_inserts (ρl : RangeOrder string) metric columns valueIdx rows :
  forall (metrics : gmap string Metric) log,
  (foldl (storeRow ρl metric columns valueIdx) (metrics, log) rows).1
  = foldl (fun m values =>
             <[rowKey ρl metric columns valueIdx values :=
                 rowEntry columns valueIdx values]> m)
          metrics (omap scannedValues rows).
Proof.
  induction rows as [|row rows IH]; intros metrics log; [done|].
  cbn [foldl]. destruct row as [|values].
  - cbn [storeRow omap list_omap scannedValues]. apply IH.
  - rewrite storeRow_Scanned, IH. done.
Qed.

(** C8: the store after a poll that found the value column is the old
    store without the keys that start with the metric's name and an
    underscore, into which every successfully scanned row has been written
    in the order of the result, under its key with its value and labels.
    A row whose scan fails is left out and the rows after it are written
    all the same; an error reported by the cursor after the last row takes
    nothing back. *)
Theorem runQuery_commits_scanned_rows (ρ : RangeOrder Metric)
    (ρl : RangeOrder string) metric columns valueIdx rows rowsErr
    (metrics : gmap string Metric) :
  findValueIdx columns = Some valueIdx ->
  (runQuery ρ ρl metric (Rows columns rows rowsErr) metrics).1
  = foldl (fun m values =>
             <[rowKey ρl metric columns valueIdx values :=
                 rowEntry columns valueIdx values]> m)
          (filter (fun kv => hasPrefix (Name metric +:+ "_") kv.1 = false)
                  metrics)
          (omap scannedValues rows).
Proof.
  intros Hidx. unfold runQuery. rewrite Hidx. cbv zeta.
  pose proof (storeRows_inserts ρl metric columns valueIdx rows
                (removePrefixed ρ (Name metric +:+ "_") metrics) []) as H.
  destruct (foldl _ _ rows) as [m l]. cbn [fst] in *.
  by rewrite H, removePrefixed_filter.
Qed.

End PollProperties.

(** * Store keys without the separator in names and labels *)

Lemma noUnderscore_split (a : string) : forall b r1 r2,
  noUnderscore a = true -> noUnderscore b = true ->
  sepStart r1 -> sepStart r2 ->
  a +:+ r1 = b +:+ r2 -> a = b ∧ r1 = r2.
Proof.
  induction a as [|c a IH]; intros [|d b] r1 r2 Ha Hb H1 H2 Heq; simpl in *.
  - done.
  - exfalso. destruct H1 as [->|[r' ->]]; [done|].
    injection Heq as <- _. by rewrite Ascii.eqb_refl in Hb.
  - exfalso. destruct H2 as [->|[r' ->]]; [done|].
    injection Heq as -> _. by rewrite Ascii.eqb_refl in Ha.
  - injection Heq as -> Heq.
    apply andb_true_iff in Ha as [_ Ha]. apply andb_true_iff in Hb as [_ Hb].
    destruct (IH b r1 r2 Ha Hb H1 H2 Heq) as [-> ->]. done.
Qed.

Lemma append_String c (a r : string) : String c a +:+ r = String c (a +:+ r).
Proof. reflexivity. Qed.

Lemma append_Empty (r : string) : EmptyString +:+ r = r.
Proof. reflexivity. Qed.

Lemma append_assoc_string (a b c : string) :
  (a +:+ b) +:+ c = a +:+ (b +:+ c).
Proof.
  induction a as [|x a IH]; [done|]. rewrite !append_String. by rewrite IH.
Qed.

Lemma append_Empty_r (a : string) : a +:+ EmptyString = a.
Proof. induction a as [|x a IH]; [done|]. rewrite append_String. by rewrite IH. Qed.

Lemma writeKeys_sepStart (labels : gmap string string) i keys :
  sepStart (writeKeys labels (S i) keys).
Proof. destruct keys; [by left|right]. simpl. by eexists. Qed.

(** The keys of a label map, as [buildLabelsKey] sorts them. *)
Lemma elem_of_sorted_keys (ρ : RangeOrder string) (labels : gmap string string)
    k :
  k ∈ merge_sort string_le (range ρ labels).*1 <-> is_Some (labels !! k).
Proof. rewrite merge_sort_Permutation. apply elem_of_range_keys. Qed.

Lemma writeKeys_inj_tail (l1 l2 : gmap string string) (ks1 : list string) :
  forall ks2 i1 i2,
  (forall k, k ∈ ks1 -> exists v, l1 !! k = Some v
               ∧ noUnderscore k = true ∧ noUnderscore v = true) ->
  (forall k, k ∈ ks2 -> exists v, l2 !! k = Some v
               ∧ noUnderscore k = true ∧ noUnderscore v = true) ->
  writeKeys l1 (S i1) ks1 = writeKeys l2 (S i2) ks2 ->
  ks1 = ks2 ∧ forall k, k ∈ ks1 -> l1 !! k = l2 !! k.
Proof.
  induction ks1 as [|k1 ks1 IH]; intros [|k2 ks2] i1 i2 H1 H2 Heq.
  - split; [done|]. intros k Hk. by apply elem_of_nil in Hk.
  - discriminate Heq.
  - discriminate Heq.
  - destruct (H1 k1) as (v1 & Hv1 & Hk1 & Hv1'); [left|].
    destruct (H2 k2) as (v2 & Hv2 & Hk2 & Hv2'); [left|].
    cbn [writeKeys Nat.ltb Nat.leb] in Heq. rewrite Hv1, Hv2 in Heq.
    cbn [default from_option id] in Heq.
    rewrite !append_String, !append_Empty in Heq. injection Heq as Heq.
    apply noUnderscore_split in Heq as [-> Heq];
      [|done|done|right; by eexists..].
    injection Heq as Heq.
    apply noUnderscore_split in Heq as [-> Heq];
      [|done|done|apply writeKeys_sepStart..].
    destruct (IH ks2 (S i1) (S i2)) as [-> Hrest]; [| |done|].
    + intros k Hk. apply H1. by right.
    + intros k Hk. apply H2. by right.
    + split; [done|]. intros k Hk.
      apply elem_of_cons in Hk as [->|Hk]; [congruence|by apply Hrest].
Qed.

Lemma writeKeys_inj (l1 l2 : gmap string string) (ks1 ks2 : list string) :
  (forall k, k ∈ ks1 -> exists v, l1 !! k = Some v
               ∧ noUnderscore k = true ∧ noUnderscore v = true) ->
  (forall k, k ∈ ks2 -> exists v, l2 !! k = Some v
               ∧ noUnderscore k = true ∧ noUnderscore v = true) ->
  writeKeys l1 0 ks1 = writeKeys l2 0 ks2 ->
  ks1 = ks2 ∧ forall k, k ∈ ks1 -> l1 !! k = l2 !! k.
Proof.
  intros H1 H2 Heq. destruct ks1 as [|k1 ks1], ks2 as [|k2 ks2].
  - split; [done|]. intros k Hk. by apply elem_of_nil in Hk.
  - exfalso. cbn [writeKeys Nat.ltb Nat.leb] in Heq.
    destruct k2; discriminate Heq.
  - exfalso. cbn [writeKeys Nat.ltb Nat.leb] in Heq.
    destruct k1; discriminate Heq.
  - destruct (H1 k1) as (v1 & Hv1 & Hk1 & Hv1'); [left|].
    destruct (H2 k2) as (v2 & Hv2 & Hk2 & Hv2'); [left|].
    cbn [writeKeys Nat.ltb Nat.leb] in Heq. rewrite Hv1, Hv2 in Heq.
    cbn [default from_option id] in Heq.
    rewrite !append_String, !append_Empty in Heq.
    apply noUnderscore_split in Heq as [-> Heq];
      [|done|done|right; by eexists..].
    injection Heq as Heq.
    apply noUnderscore_split in Heq as [-> Heq];
      [|done|done|apply writeKeys_sepStart..].
    destruct (writeKeys_inj_tail l1 l2 ks1 ks2 0 0) as [-> Hrest]; [| |done|].
    + intros k Hk. apply H1. by right.
    + intros k Hk. apply H2. by right.
    + split; [done|]. intros k Hk.
      apply elem_of_cons in Hk as [->|Hk]; [congruence|by apply Hrest].
Qed.

(** X12: label sets whose keys and values contain no underscore get different
    label keys unless they are the same label set. *)
Theorem buildLabelsKey_injective_without_underscores
    (ρ1 ρ2 : RangeOrder string) (labels1 labels2 : gmap string string) :
  labelsClean labels1 -> labelsClean labels2 ->
  buildLabelsKey ρ1 labels1 = buildLabelsKey ρ2 labels2 ->
  labels1 = labels2.
Proof.
  intros Hc1 Hc2 Heq. unfold buildLabelsKey in Heq. cbv zeta in Heq.
  apply writeKeys_inj in Heq as [Hkeys Hvals].
  - apply map_eq. intros k.
    destruct (labels1 !! k) as [v|] eqn:Hk.
    + rewrite <-Hk. apply Hvals. apply elem_of_sorted_keys. by rewrite Hk.
    + symmetry. apply eq_None_not_Some. intros Hsome.
      apply (elem_of_sorted_keys ρ2) in Hsome. rewrite <-Hkeys in Hsome.
      apply elem_of_sorted_keys in Hsome. rewrite Hk in Hsome.
      by destruct Hsome.
  - intros k Hk. apply elem_of_sorted_keys in Hk as [v Hv].
    exists v. split; [done|]. by apply (Hc1 k v).
  - intros k Hk. apply elem_of_sorted_keys in Hk as [v Hv].
    exists v. split; [done|]. by apply (Hc2 k v).
Qed.

(** X13: series identity without the separator: when the family names and the
    label keys and values contain no underscore, two series get the same
    store key only if they have the same family name and the same label
    set. *)
Theorem seriesKey_injective_without_underscores (ρ1 ρ2 : RangeOrder string)
    (name1 name2 : string) (labels1 labels2 : gmap string string) :
  noUnderscore name1 = true -> noUnderscore name2 = true ->
  labelsClean labels1 -> labelsClean labels2 ->
  seriesKey ρ1 name1 labels1 = seriesKey ρ2 name2 labels2 ->
  name1 = name2 ∧ labels1 = labels2.
Proof.
  intros Hn1 Hn2 Hc1 Hc2. unfold seriesKey.
  destruct (size labels1) as [|n1] eqn:Hs1, (size labels2) as [|n2] eqn:Hs2;
    cbn [Nat.ltb Nat.leb]; rewrite ?append_assoc_string, ?append_String,
      ?append_Empty; intros Heq.
  - apply map_size_empty_iff in Hs1, Hs2. by subst.
  - exfalso. rewrite <-(append_Empty_r name1) in Heq.
    apply noUnderscore_split in Heq as [_ Heq];
      [done|done|done|by left|right; by eexists].
  - exfalso. rewrite <-(append_Empty_r name2) in Heq.
    apply noUnderscore_split in Heq as [_ Heq];
      [done|done|done|right; by eexists|by left].
  - apply noUnderscore_split in Heq as [-> Heq];
      [|done|done|right; by eexists..].
    injection Heq as Heq. split; [done|].
    by apply (buildLabelsKey_injective_without_underscores ρ1 ρ2).
Qed.

(** * The handlers *)

Lemma prefix_sep c (s : string) :
  String.prefix "_" (String c s) = Ascii.eqb c "_".
Proof.
  assert (String.prefix "_" (String c s)
          = if ascii_dec "_" c then true else false) as ->
    by (destruct s; reflexivity).
  destruct (ascii_dec "_" c) as [<-|Hne]; [by rewrite Ascii.eqb_refl|].
  symmetry. apply Ascii.eqb_neq. congruence.
Qed.

Lemma index_sep_none (name : string) :
  noUnderscore name = true -> String.index 0 "_" name = None.
Proof.
  induction name as [|c name IH]; [done|]. cbn [noUnderscore String.index].
  intros [Hc Hname]%andb_true_iff. rewrite prefix_sep.
  apply negb_true_iff in Hc. rewrite Hc. by rewrite IH.
Qed.

Lemma index_sep_first (name rest : string) :
  noUnderscore name = true ->
  String.index 0 "_" (name +:+ String "_" rest) = Some (String.length name).
Proof.
  induction name as [|c name IH].
  - intros _. rewrite append_Empty. cbn [String.index].
    by rewrite prefix_sep, Ascii.eqb_refl.
  - cbn [noUnderscore]. intros [Hc Hname]%andb_true_iff.
    rewrite append_String. cbn [String.index String.length].
    rewrite prefix_sep. apply negb_true_iff in Hc. rewrite Hc.
    by rewrite IH.
Qed.

Lemma substring_append (name rest : string) :
  substring 0 (String.length name) (name +:+ rest) = name.
Proof.
  induction name as [|c name IH]; [by destruct rest|].
  rewrite append_String. cbn [String.length substring]. by rewrite IH.
Qed.

Section HandlerProperties.
Context `{F64 : Float64Ops}.

(** X14: the base name the handlers cut out of a store key is the family name
    when that name is not empty and contains no underscore, for the bare
    key of an unlabelled series and for the key of a labelled one. *)
Theorem baseName_of_seriesKey (ρl : RangeOrder string) (name : string)
    (labels : gmap string string) :
  noUnderscore name = true -> name <> EmptyString ->
  baseName (seriesKey ρl name labels) = name.
Proof.
  intros Hclean Hne. unfold seriesKey, baseName.
  destruct (0 <? size labels)%nat.
  - rewrite append_assoc_string, append_String, append_Empty.
    rewrite index_sep_first by done.
    destruct name as [|c name]; [done|]. cbn [String.length].
    apply (substring_append (String c name)).
  - by rewrite index_sep_none.
Qed.

Lemma writeLabels_false_concat (p : string * string)
    (rest : list (string * string)) :
  labelPair p +:+ writeLabels false rest
  = String.concat "," (map labelPair (p :: rest)).
Proof.
  revert p. induction rest as [|q rest IH]; intros p.
  - cbn [writeLabels map String.concat]. apply append_Empty_r.
  - change (String.concat "," (map labelPair (p :: q :: rest)))
      with (labelPair p +:+ "," +:+
            String.concat "," (map labelPair (q :: rest))).
    rewrite <-(IH q).
    destruct q as [k v]. cbn [writeLabels]. unfold labelPair. cbn [fst snd].
    by rewrite !append_assoc_string.
Qed.

Lemma writeLabels_concat (pairs : list (string * string)) :
  writeLabels true pairs = String.concat "," (map labelPair pairs).
Proof.
  destruct pairs as [|[k v] rest]; [done|].
  rewrite <-writeLabels_false_concat. cbn [writeLabels].
  unfold labelPair. cbn [fst snd].
  by rewrite append_Empty, !append_assoc_string.
Qed.

Lemma substring_beforeUnderscore (name : string) :
  match String.index 0 "_" name with
  | Some idx => substring 0 idx name = beforeUnderscore name
  | None => beforeUnderscore name = name
  end.
Proof.
  induction name as [|c name IH]; [done|].
  cbn [String.index beforeUnderscore]. rewrite prefix_sep.
  destruct (Ascii.eqb c "_"); [done|].
  destruct (String.index 0 "_" name) as [idx|].
  - cbn [substring]. by rewrite IH.
  - by rewrite IH.
Qed.

Lemma baseName_familyName (name : string) : baseName name = familyName name.
Proof.
  unfold baseName. pose proof (substring_beforeUnderscore name) as Hcut.
  destruct name as [|c name]; [done|]. revert Hcut.
  cbn [String.index familyName]. rewrite prefix_sep.
  destruct (Ascii.eqb c "_"); [done|].
  destruct (String.index 0 "_" name) as [idx|]; [done|].
  by intros ->.
Qed.

Lemma toFloat_numberOf (v : Value) : toFloat v = numberOf v.
Proof. by destruct v. Qed.

Lemma writeMetric_exposition (ρl : RangeOrder string) name (value : Metric) :
  writeMetric ρl name value = expositionBlock ρl name value.
Proof.
  unfold writeMetric, expositionBlock, helpLine, typeLine. cbv zeta.
  rewrite baseName_familyName.
  destruct value as [v|v labels]; rewrite toFloat_numberOf;
    destruct (numberOf v) as [f|]; try done.
  - rewrite <-(range_length ρl), writeLabels_concat.
    destruct (range ρl labels) as [|p pairs]; [done|].
    cbn [length Nat.ltb Nat.leb labelPart]. by rewrite !append_assoc_string.
Qed.

(** X15: the response of [handleMetrics] is, entry of the store by entry in
    the order of the range, the exposition block of the entry.  For an
    entry whose value is a number (an integer or a float of any width, or
    bytes that parse as a float) these are three lines: HELP and TYPE for
    the family name, which is the key up to its first underscore (the
    whole key when it has none or starts with one), and the sample line:
    the family name, the labels in braces, each as key, equals sign and
    escaped value in double quotes with a comma between two of them, a
    space and the value.  Braces are written only when there is a label.
    For any other entry nothing is written.  HELP and TYPE come once per
    series, not once per family. *)
Theorem handleMetrics_exposition (ρ : RangeOrder Metric)
    (ρl : RangeOrder string) (metrics : gmap string Metric) :
  handleMetrics ρ ρl metrics
  = concat (map (fun kv => expositionBlock ρl kv.1 kv.2) (range ρ metrics)).
Proof.
  unfold handleMetrics, metricBlocks. f_equal.
  apply map_ext. intros kv. apply writeMetric_exposition.
Qed.

Lemma groupMetric_insert (response : gmap string JsonValue)
    (kv : string * Metric) :
  exists x, groupMetric response kv = <[jsonKey kv.1 kv.2 := x]> response.
Proof.
  unfold groupMetric, jsonKey. destruct kv as [k [v|v labels]]; cbn [fst snd];
    by eexists.
Qed.

Lemma groupMetric_fold_is_Some (l : list (string * Metric)) b :
  forall response : gmap string JsonValue,
  is_Some (foldl groupMetric response l !! b)
  <-> is_Some (response !! b)
      ∨ exists kv, kv ∈ l ∧ jsonKey kv.1 kv.2 = b.
Proof.
  induction l as [|kv l IH]; intros response; cbn [foldl].
  - split; [by left|]. intros [H|(kv & Hin & _)]; [done|].
    by apply elem_of_nil in Hin.
  - rewrite IH. destruct (groupMetric_insert response kv) as [x ->].
    rewrite lookup_insert_is_Some. split.
    + intros [[Hb|[_ H]]|(kv' & Hin & Hb)].
      * right. exists kv. split; [left|done].
      * by left.
      * right. exists kv'. split; [by right|done].
    + intros [H|(kv' & Hin & Hb)].
      * left. destruct (decide (jsonKey kv.1 kv.2 = b)); [by left|by right].
      * apply elem_of_cons in Hin as [->|Hin]; [by left; left|].
        right. by exists kv'.
Qed.

(** X18: the keys of the JSON response are the keys of the direct values and
    the base names of the labelled keys of the store, and no other. *)
Theorem handleMetricsJSON_keys (ρ : RangeOrder Metric)
    (metrics : gmap string Metric) b :
  is_Some (handleMetricsJSON ρ metrics !! b)
  <-> exists k value, metrics !! k = Some value ∧ jsonKey k value = b.
Proof.
  unfold handleMetricsJSON. rewrite groupMetric_fold_is_Some, lookup_empty.
  split.
  - intros [H|([k e] & Hin & Hb)]; [by destruct H|].
    exists k, e. split; [by apply elem_of_range in Hin|done].
  - intros (k & e & Hk & Hb). right. exists (k, e).
    split; [by apply elem_of_range|done].
Qed.

Lemma elem_of_groupOf b (l : list (string * Metric)) v labels :
  (v, labels) ∈ groupOf b l
  <-> exists k, (k, Labeled v labels) ∈ l ∧ baseName k = b.
Proof.
  unfold groupOf. rewrite list_elem_of_omap. split.
  - intros ([k e] & Hin & Hsome). cbn [fst snd] in Hsome.
    destruct e as [w|w ls]; [done|].
    destruct (decide (baseName k = b)); [|done].
    injection Hsome as -> ->. by exists k.
  - intros (k & Hin & Hb). exists (k, Labeled v labels). split; [done|].
    cbn [fst snd]. by rewrite decide_True.
Qed.

Lemma elem_of_directOf b (l : list (string * Metric)) v :
  v ∈ directOf b l <-> (b, Direct v) ∈ l.
Proof.
  unfold directOf. rewrite list_elem_of_omap. split.
  - intros ([k e] & Hin & Hsome). cbn [fst snd] in Hsome.
    destruct e as [w|w ls]; [|done].
    destruct (decide (k = b)) as [->|]; [|done]. by injection Hsome as ->.
  - intros Hin. exists (b, Direct v). split; [done|].
    cbn [fst snd]. by rewrite decide_True.
Qed.

(** X19: when no direct value sits under the base name of a labelled key, the
    JSON response loses and invents nothing: a direct value is reported
    under its own key, a labelled series is a member of the group under
    the base name of its key, and every member of a group is a labelled
    series of the store whose key has that base name. *)
Theorem handleMetricsJSON_complete_and_sound (ρ : RangeOrder Metric)
    (metrics : gmap string Metric) :
  groupsApart metrics ->
  (forall k v, metrics !! k = Some (Direct v) ->
     handleMetricsJSON ρ metrics !! k = Some (JDirect v))
  ∧ (forall k v labels, metrics !! k = Some (Labeled v labels) ->
       exists group,
         handleMetricsJSON ρ metrics !! baseName k = Some (JGroup group)
         ∧ (v, labels) ∈ group)
  ∧ (forall b group v labels,
       handleMetricsJSON ρ metrics !! b = Some (JGroup group) ->
       (v, labels) ∈ group ->
       exists k, metrics !! k = Some (Labeled v labels) ∧ baseName k = b).
Proof.
  intros Hapart. split; [|split].
  - intros k v Hk. rewrite handleMetricsJSON_lookup by done.
    assert (v ∈ directOf k (range ρ metrics)) as Hin.
    { apply elem_of_directOf. by apply elem_of_range. }
    pose proof (directOf_length k _ (NoDup_range_keys ρ metrics)) as Hlen.
    destruct (directOf k (range ρ metrics)) as [|w [|??]];
      [by apply elem_of_nil in Hin| |simpl in Hlen; lia].
    apply list_elem_of_singleton in Hin as ->. done.
  - intros k v labels Hk. rewrite handleMetricsJSON_lookup by done.
    rewrite directOf_none.
    + assert ((v, labels) ∈ groupOf (baseName k) (range ρ metrics)) as Hin.
      { apply elem_of_groupOf. exists k. split; [|done].
        by apply elem_of_range. }
      cbn [jsonEntry].
      destruct (groupOf (baseName k) (range ρ metrics)) as [|g gs] eqn:Hg;
        [by apply elem_of_nil in Hin|].
      by eexists.
    + intros v' Hin. apply elem_of_range in Hin. by apply (Hapart k v labels v').
  - intros b group v labels. rewrite handleMetricsJSON_lookup by done.
    unfold jsonEntry. destruct (directOf b (range ρ metrics)); [|done].
    destruct (groupOf b (range ρ metrics)) as [|g gs] eqn:Hg; [done|].
    intros [= <-] Hin. rewrite <-Hg in Hin.
    apply elem_of_groupOf in Hin as (k & Hin & Hb).
    exists k. split; [by apply elem_of_range in Hin|done].
Qed.

End HandlerProperties.

(** * Escaping of label values *)

(** What [escapeLabelValue] writes for the first byte of a value. *)
Lemma escape_head (c : ascii) (v : string) :
  (c = "092"%char
   ∧ escapeLabelValue (String c v)
     = String "092" (String "092" (escapeLabelValue v)))
  ∨ (c = "010"%char
     ∧ escapeLabelValue (String c v)
       = String "092" (String "n" (escapeLabelValue v)))
  ∨ (c = "034"%char
     ∧ escapeLabelValue (String c v)
       = String "092" (String "034" (escapeLabelValue v)))
  ∨ (c <> "092"%char ∧ c <> "010"%char ∧ c <> "034"%char
     ∧ escapeLabelValue (String c v) = String c (escapeLabelValue v)).
Proof.
  cbn [escapeLabelValue].
  destruct (Ascii.eqb_spec c "092") as [->|H1]; [by left|].
  destruct (Ascii.eqb_spec c "010") as [->|H2]; [by right; left|].
  destruct (Ascii.eqb_spec c "034") as [->|H3]; [by right; right; left|].
  by right; right; right.
Qed.

(** X16: escaping loses nothing: two label values with the same escaped text
    are the same value. *)
Theorem escapeLabelValue_injective (v : string) : forall w,
  escapeLabelValue v = escapeLabelValue w -> v = w.
Proof.
  induction v as [|c v IH]; intros [|d w].
  - done.
  - destruct (escape_head d w)
      as [ (_ & ->) | [ (_ & ->) | [ (_ & ->) | (_ & _ & _ & ->) ] ] ];
      discriminate.
  - destruct (escape_head c v)
      as [ (_ & ->) | [ (_ & ->) | [ (_ & ->) | (_ & _ & _ & ->) ] ] ];
      discriminate.
  - destruct (escape_head c v)
      as [ (-> & ->) | [ (-> & ->) | [ (-> & ->) | (? & ? & ? & ->) ] ] ];
      destruct (escape_head d w)
        as [ (-> & ->) | [ (-> & ->) | [ (-> & ->) | (? & ? & ? & ->) ] ] ];
      intros Heq; simplify_eq; try done; f_equal; by apply IH.
Qed.

(** X17: an escaped label value holds no line feed: a label value cannot end
    the sample line it is written in. *)
Theorem escapeLabelValue_has_no_newline (v : string) :
  "010"%char ∉ list_ascii_of_string (escapeLabelValue v).
Proof.
  induction v as [|c v IH].
  - apply not_elem_of_nil.
  - destruct (escape_head c v)
      as [ (_ & ->) | [ (_ & ->) | [ (_ & ->) | (_ & ? & _ & ->) ] ] ];
      cbn [list_ascii_of_string]; rewrite ?not_elem_of_cons;
      repeat split; done.
Qed.

(** * How polls compose *)

Section PollComposition.
Context `{F64 : Float64Ops}.

Lemma storeRows_lookup (ρl : RangeOrder string) metric columns valueIdx k
    rows :
  forall (metrics : gmap string Metric) log,
  (foldl (storeRow ρl metric columns valueIdx) (metrics, log) rows).1 !! k
  = match lastEntry ρl metric columns valueIdx k rows with
    | Some e => Some e
    | None => metrics !! k
    end.
Proof.
  induction rows as [|row rows IH]; intros metrics log; [done|].
  cbn [foldl lastEntry]. destruct row as [|values].
  - cbn [storeRow]. rewrite IH. by destruct (lastEntry _ _ _ _ _ rows).
  - rewrite storeRow_Scanned, IH.
    destruct (lastEntry _ _ _ _ _ rows); [done|].
    destruct (decide (rowKey ρl metric columns valueIdx values = k))
      as [<-|Hne].
    + apply lookup_insert_eq.
    + by apply lookup_insert_ne.
Qed.

Lemma runQuery_rows_lookup (ρ : RangeOrder Metric) (ρl : RangeOrder string)
    metric columns valueIdx rows rowsErr (metrics : gmap string Metric) k :
  findValueIdx columns = Some valueIdx ->
  (runQuery ρ ρl metric (Rows columns rows rowsErr) metrics).1 !! k
  = match lastEntry ρl metric columns valueIdx k rows with
    | Some e => Some e
    | None =>
        if hasPrefix (Name metric +:+ "_") k then None else metrics !! k
    end.
Proof.
  intros Hidx. unfold runQuery. rewrite Hidx. cbv zeta.
  pose proof (storeRows_lookup ρl metric columns valueIdx k rows
                (removePrefixed ρ (Name metric +:+ "_") metrics) []) as H.
  destruct (foldl _ _ rows) as [m l]. cbn [fst] in *.
  by rewrite H, removePrefixed_lookup.
Qed.

(** X2: the store after a poll that found the value column, key by key: the
    entry of the last scanned row stored under the key if there is such a
    row; otherwise nothing for a key that starts with the metric's name and
    an underscore, and the old entry for every other key. *)
Theorem runQuery_store_key_by_key (ρ : RangeOrder Metric)
    (ρl : RangeOrder string) metric columns valueIdx rows rowsErr
    (metrics : gmap string Metric) k :
  findValueIdx columns = Some valueIdx ->
  (runQuery ρ ρl metric (Rows columns rows rowsErr) metrics).1 !! k
  = match lastEntry ρl metric columns valueIdx k rows with
    | Some e => Some e
    | None =>
        if hasPrefix (Name metric +:+ "_") k then None else metrics !! k
    end.
Proof. apply runQuery_rows_lookup. Qed.

(** What a poll leaves under a key depends on the old store through the
    old entry of that key alone. *)
Lemma runQuery_local (ρ ρ' : RangeOrder Metric) (ρl : RangeOrder string)
    metric result (m m' : gmap string Metric) k :
  m !! k = m' !! k ->
  (runQuery ρ ρl metric result m).1 !! k
  = (runQuery ρ' ρl metric result m').1 !! k.
Proof.
  intros Hk. destruct result as [| |columns rows rowsErr]; [done|done|].
  destruct (findValueIdx columns) as [valueIdx|] eqn:Hidx.
  - rewrite !(runQuery_rows_lookup _ _ _ _ valueIdx) by done. by rewrite Hk.
  - unfold runQuery. by rewrite Hidx.
Qed.

(** X6: polling twice with the same answer of the database changes nothing the
    second time: the store after the second poll is the store after the
    first. *)
Theorem runQuery_idempotent (ρ ρ' : RangeOrder Metric) (ρl : RangeOrder string)
    metric result (metrics : gmap string Metric) :
  (runQuery ρ' ρl metric result
     (runQuery ρ ρl metric result metrics).1).1
  = (runQuery ρ ρl metric result metrics).1.
Proof.
  destruct result as [| |columns rows rowsErr]; [done|done|].
  destruct (findValueIdx columns) as [valueIdx|] eqn:Hidx.
  - apply map_eq. intros k.
    rewrite !(runQuery_rows_lookup _ _ _ _ valueIdx) by done.
    destruct (lastEntry _ _ _ _ _ rows); [done|].
    by destruct (hasPrefix _ k).
  - unfold runQuery. by rewrite !Hidx.
Qed.

Lemma noUnderscore_app_sep (a rest : string) :
  noUnderscore (a +:+ String "_" rest) = false.
Proof.
  induction a as [|c a IH]; [done|]. rewrite append_String.
  cbn [noUnderscore]. rewrite IH. apply andb_false_r.
Qed.

Lemma ownKey_dec (name k : string) : ownKey name k ∨ ~ ownKey name k.
Proof.
  unfold ownKey. destruct (decide (k = name)) as [|Hne]; [by left; left|].
  destruct (hasPrefix (name +:+ "_") k); [by left; right|].
  right. intros [?|?]; done.
Qed.

(** Two names without underscore own no key in common unless they are the
    same name. *)
Lemma ownKey_disjoint (name1 name2 k : string) :
  noUnderscore name1 = true -> noUnderscore name2 = true ->
  name1 <> name2 -> ownKey name1 k -> ownKey name2 k -> False.
Proof.
  intros H1 H2 Hne [->|Hp1] [Hk|Hp2].
  - done.
  - apply hasPrefix_inv in Hp2 as [rest ->].
    rewrite append_assoc_string, append_String, append_Empty in H1.
    by rewrite noUnderscore_app_sep in H1.
  - subst k. apply hasPrefix_inv in Hp1 as [rest ->].
    rewrite append_assoc_string, append_String, append_Empty in H2.
    by rewrite noUnderscore_app_sep in H2.
  - apply hasPrefix_inv in Hp1 as [r1 ->].
    apply hasPrefix_inv in Hp2 as [r2 Heq].
    rewrite !append_assoc_string, !append_String, !append_Empty in Heq.
    apply noUnderscore_split in Heq as [Heq _];
      [done|done|done|right; by eexists..].
Qed.

Lemma runQuery_not_own (ρ : RangeOrder Metric) (ρl : RangeOrder string)
    metric result (metrics : gmap string Metric) k :
  ~ ownKey (Name metric) k ->
  (runQuery ρ ρl metric result metrics).1 !! k = metrics !! k.
Proof.
  intros Hnot. apply runQuery_other_keys.
  - destruct (hasPrefix _ k) eqn:Hp; [|done]. exfalso. apply Hnot. by right.
  - intros ->. apply Hnot. by left.
Qed.

(** X7: polls of two metrics whose names contain no underscore and differ do
    not interfere: whatever the database answers to each, the store after
    both polls is the same in either order. *)
Theorem runQuery_commute (ρ1 ρ2 ρ3 ρ4 : RangeOrder Metric)
    (ρl : RangeOrder string) metricA metricB resultA resultB
    (metrics : gmap string Metric) :
  noUnderscore (Name metricA) = true -> noUnderscore (Name metricB) = true ->
  Name metricA <> Name metricB ->
  (runQuery ρ2 ρl metricB resultB
     (runQuery ρ1 ρl metricA resultA metrics).1).1
  = (runQuery ρ4 ρl metricA resultA
       (runQuery ρ3 ρl metricB resultB metrics).1).1.
Proof.
  intros HA HB Hne. apply map_eq. intros k.
  destruct (ownKey_dec (Name metricB) k) as [HownB|HnotB].
  - assert (~ ownKey (Name metricA) k) as HnotA.
    { intros HownA. by apply (ownKey_disjoint _ _ k HA HB Hne). }
    rewrite (runQuery_not_own ρ4 ρl metricA) by done.
    apply runQuery_local. by apply runQuery_not_own.
  - rewrite (runQuery_not_own ρ2 ρl metricB) by done.
    apply runQuery_local. symmetry. by apply runQuery_not_own.
Qed.

End PollComposition.

(** * LoadConfig *)

Section ConfigurationProperties.
Variable ParseDuration : string -> option Z.
Variable Atoi : string -> option Z.

Lemma addMetric_fold (jsonMetrics : list jsonMetricConfig) :
  forall config : Config,
  let after := foldl (addMetric ParseDuration) config jsonMetrics in
  Port after = Port config ∧ Interval after = Interval config
  ∧ Database after = Database config
  ∧ Metrics after
    = Metrics config
      ++ map (timedMetricOf ParseDuration (Interval config)) jsonMetrics.
Proof.
  induction jsonMetrics as [|jm rest IH]; intros config; cbn [foldl map].
  - by rewrite app_nil_r.
  - destruct (IH (addMetric ParseDuration config jm))
      as (HP & HI & HD & HM).
    cbv zeta in *. rewrite HP, HI, HD, HM. cbn. repeat split; try done.
    rewrite <-app_assoc. cbn. unfold timedMetricOf.
    by destruct (ParseDuration (jsonMetricInterval jm)).
Qed.

Lemma fromFile_Metrics (config : Config) (jsonCfg : jsonConfig) :
  Metrics (fromFile ParseDuration config jsonCfg)
  = Metrics config
    ++ map (timedMetricOf ParseDuration
              (default (Interval config)
                 (ParseDuration (jsonInterval jsonCfg))))
         (jsonMetrics jsonCfg).
Proof.
  unfold fromFile. cbv zeta.
  match goal with
  | |- Metrics (foldl _ ?c _) = _ =>
      destruct (addMetric_fold (jsonMetrics jsonCfg) c) as (_ & _ & _ & ->)
  end.
  by destruct (ParseDuration (jsonInterval jsonCfg)).
Qed.

(** X20: the metrics of a decoded configuration file are kept one for one and
    in order, each with its name and query; the interval of a metric is the
    one its own text parses to, or else the interval the file's own text
    parses to, or else 60 seconds.  The environment plays no part in it. *)
Theorem LoadConfig_metrics (path : string) (jsonCfg : jsonConfig)
    (env : string -> string) :
  path <> EmptyString ->
  Metrics (LoadConfig ParseDuration Atoi path (Decoded jsonCfg) env).1
  = map (timedMetricOf ParseDuration
           (default (60 * Second) (ParseDuration (jsonInterval jsonCfg))))
        (jsonMetrics jsonCfg).
Proof.
  intros Hpath. unfold LoadConfig. cbv zeta.
  apply String.eqb_neq in Hpath. rewrite Hpath. cbn [fst fromEnv Metrics].
  by rewrite fromFile_Metrics.
Qed.

(** X21: the environment never changes the metrics: two runs of [LoadConfig] on
    the same file under two environments return the same list of metrics,
    so the variable INTERVAL does not reach the metrics that fell back to
    the interval of the file. *)
Theorem LoadConfig_metrics_ignore_environment (path : string)
    (file : FileOutcome) (env1 env2 : string -> string) :
  Metrics (LoadConfig ParseDuration Atoi path file env1).1
  = Metrics (LoadConfig ParseDuration Atoi path file env2).1.
Proof.
  unfold LoadConfig. cbv zeta.
  destruct (String.eqb path EmptyString); [done|]. by destruct file.
Qed.

(** X22: the environment wins over the file: when [LoadConfig] returns no error
    and the variable PORT is set to a text that parses as an integer, the
    port is that integer, whatever the file says. *)
Theorem LoadConfig_port_from_environment (path : string) (file : FileOutcome)
    (env : string -> string) (p : Z) :
  (LoadConfig ParseDuration Atoi path file env).2 = None ->
  env "PORT" <> EmptyString -> Atoi (env "PORT") = Some p ->
  Port (LoadConfig ParseDuration Atoi path file env).1 = p.
Proof.
  intros Hok Hset Hp. apply String.eqb_neq in Hset.
  unfold LoadConfig in *. cbv zeta in *.
  destruct (String.eqb path EmptyString);
    [|destruct file; try discriminate Hok];
    cbn [fst fromEnv Port]; unfold envInt; by rewrite Hset, Hp.
Qed.

(** X23: [LoadConfig] returns an error exactly when the path is not empty and
    the file cannot be opened for a reason other than its absence, or
    cannot be decoded; the configuration it returns with an error is the
    default one, without any override from the environment. *)
Theorem LoadConfig_error (path : string) (file : FileOutcome)
    (env : string -> string) :
  (is_Some (LoadConfig ParseDuration Atoi path file env).2
   <-> path <> EmptyString ∧ (file = OpenError ∨ file = DecodeError))
  ∧ (is_Some (LoadConfig ParseDuration Atoi path file env).2 ->
     (LoadConfig ParseDuration Atoi path file env).1 = defaultConfig).
Proof.
  unfold LoadConfig. cbv zeta.
  destruct (String.eqb_spec path EmptyString) as [->|Hne].
  - split; [split|]; cbn [snd].
    + intros [? [=]].
    + by intros [? _].
    + intros [? [=]].
  - destruct file; cbn [fst snd]; (split; [split|]); try done;
      try (intros [? [=]]); try (intros [_ [[=]|[=]]]); by eauto.
Qed.

End ConfigurationProperties.

(** * The further properties on sample inputs *)

Lemma labelsCleanb_true (labels : gmap string string) :
  labelsCleanb labels = true -> labelsClean labels.
Proof.
  unfold labelsCleanb. rewrite forallb_forall. intros Hall k v Hk.
  specialize (Hall (k, v)). cbn [fst snd] in Hall.
  apply andb_true_iff, Hall, list_elem_of_In. by apply elem_of_map_to_list.
Qed.

Lemma prodLabels_clean : labelsClean prodLabels.
Proof. apply labelsCleanb_true. reflexivity. Qed.

Lemma runQuery_touches_own_keys_only_witness :
  (runQuery (listed_order Metric) (listed_order string) (metricNamed "users")
     statusRows {["orders" := Direct (VInt64 3)]}).1 !! "orders"
  = ({["orders" := Direct (VInt64 3)]} : gmap string Metric) !! "orders".
Proof.
  apply runQuery_touches_own_keys_only; [reflexivity|discriminate].
Defined.

Lemma runQuery_prefixed_entries_are_fresh_witness :
  exists values,
    Scanned values ∈ [Scanned [VBytes "active"; VInt64 150];
                      Scanned [VBytes "inactive"; VInt64 75]]
    ∧ "users_status_active"
      = rowKey (listed_order string) (metricNamed "users")
          ["status"; "value"] 1 values
    ∧ Labeled (VInt64 150) {["status" := "active"]}
      = rowEntry ["status"; "value"] 1 values.
Proof.
  apply (runQuery_prefixed_entries_are_fresh (listed_order Metric)
           (listed_order string) (metricNamed "users") ["status"; "value"]
           1%nat _ false usersByStatus "users_status_active");
    reflexivity.
Defined.

Lemma runQuery_last_row_of_a_key_wins_witness :
  (runQuery (listed_order Metric) (listed_order string) (metricNamed "users")
     (Rows ["status"; "value"]
        ([Scanned [VBytes "active"; VInt64 150]]
         ++ Scanned [VBytes "active"; VInt64 151] :: [ScanError]) false)
     ∅).1
    !! rowKey (listed_order string) (metricNamed "users") ["status"; "value"]
         1 [VBytes "active"; VInt64 151]
  = Some (rowEntry ["status"; "value"] 1 [VBytes "active"; VInt64 151]).
Proof.
  apply runQuery_last_row_of_a_key_wins; [reflexivity|].
  intros values' Hin. apply list_elem_of_singleton in Hin. discriminate Hin.
Defined.

Lemma runQuery_without_rows_witness :
  (runQuery (listed_order Metric) (listed_order string) (metricNamed "users")
     (Rows ["value"] [] true) usersByStatus).1
  = filter (fun kv => hasPrefix ("users" +:+ "_") kv.1 = false) usersByStatus.
Proof.
  apply (runQuery_without_rows (listed_order Metric) (listed_order string)
           (metricNamed "users") ["value"] true usersByStatus).
  left.
Defined.

Lemma rowKey_bare_iff_value_alone_witness :
  (rowKey (listed_order string) (metricNamed "queue_depth") ["value"] 0
     [VInt64 42] = "queue_depth"
   ∧ rowEntry ["value"] 0 [VInt64 42] = Direct (valueAt [VInt64 42] 0))
  <-> ["value"] = ["value"].
Proof.
  apply (rowKey_bare_iff_value_alone (listed_order string)
           (metricNamed "queue_depth") ["value"] 0%nat [VInt64 42]).
  reflexivity.
Defined.

Lemma runQuery_log_witness :
  (runQuery (listed_order Metric) (listed_order string) (metricNamed "users")
     (Rows ["status"; "value"]
        [Scanned [VBytes "active"; VInt64 150]; ScanError] true) ∅).2
  = pollLog "users" [Scanned [VBytes "active"; VInt64 150]; ScanError] true.
Proof.
  apply (runQuery_log (listed_order Metric) (listed_order string)
           (metricNamed "users") ["status"; "value"]).
  right. left.
Defined.

Lemma buildLabelsKey_injective_without_underscores_witness :
  prodLabels = prodLabels.
Proof.
  apply (buildLabelsKey_injective_without_underscores (listed_order string)
           (reversed_order string) prodLabels prodLabels);
    [exact prodLabels_clean|exact prodLabels_clean|reflexivity].
Defined.

Lemma seriesKey_injective_without_underscores_witness :
  "jobs" = "jobs" ∧ prodLabels = prodLabels.
Proof.
  apply (seriesKey_injective_without_underscores (listed_order string)
           (reversed_order string) "jobs" "jobs" prodLabels prodLabels);
    [reflexivity|reflexivity|exact prodLabels_clean|exact prodLabels_clean
    |reflexivity].
Defined.

Lemma baseName_of_seriesKey_witness :
  baseName (seriesKey (listed_order string) "jobs" prodLabels) = "jobs".
Proof.
  apply baseName_of_seriesKey; [reflexivity|discriminate].
Defined.

Lemma handleMetricsJSON_complete_and_sound_witness :
  (forall k v, usersByStatus !! k = Some (Direct v) ->
     handleMetricsJSON (listed_order Metric) usersByStatus !! k
     = Some (JDirect v))
  ∧ (forall k v labels, usersByStatus !! k = Some (Labeled v labels) ->
       exists group,
         handleMetricsJSON (listed_order Metric) usersByStatus !! baseName k
         = Some (JGroup group)
         ∧ (v, labels) ∈ group)
  ∧ (forall b group v labels,
       handleMetricsJSON (listed_order Metric) usersByStatus !! b
       = Some (JGroup group) ->
       (v, labels) ∈ group ->
       exists k, usersByStatus !! k = Some (Labeled v labels)
                 ∧ baseName k = b).
Proof.
  apply (handleMetricsJSON_complete_and_sound (listed_order Metric)
           usersByStatus).
  exact usersByStatus_groupsApart.
Defined.

Lemma escapeLabelValue_injective_witness :
  "say " +:+ dquote +:+ "hi" +:+ dquote = "say " +:+ dquote +:+ "hi" +:+ dquote.
Proof.
  apply escapeLabelValue_injective. reflexivity.
Defined.

Lemma runQuery_store_key_by_key_witness :
  (runQuery (listed_order Metric) (listed_order string) (metricNamed "users")
     (Rows ["status"; "value"]
        [Scanned [VBytes "active"; VInt64 150]] false)
     usersByStatus).1 !! "users_status_inactive"
  = match lastEntry (listed_order string) (metricNamed "users")
            ["status"; "value"] 1 "users_status_inactive"
            [Scanned [VBytes "active"; VInt64 150]] with
    | Some e => Some e
    | None =>
        if hasPrefix ("users" +:+ "_") "users_status_inactive" then None
        else usersByStatus !! "users_status_inactive"
    end.
Proof.
  apply (runQuery_store_key_by_key (listed_order Metric) (listed_order string)
           (metricNamed "users") ["status"; "value"] 1%nat).
  reflexivity.
Defined.

Lemma runQuery_commute_witness :
  (runQuery (listed_order Metric) (listed_order string) (metricNamed "orders")
     (oneValue 7)
     (runQuery (listed_order Metric) (listed_order string)
        (metricNamed "users") statusRows ∅).1).1
  = (runQuery (listed_order Metric) (listed_order string)
       (metricNamed "users") statusRows
       (runQuery (listed_order Metric) (listed_order string)
          (metricNamed "orders") (oneValue 7) ∅).1).1.
Proof.
  apply runQuery_commute; [reflexivity|reflexivity|discriminate].
Defined.

Lemma LoadConfig_metrics_witness :
  Metrics (LoadConfig sampleParseDuration parse_decimal "config.json"
             (Decoded sampleJsonConfig) sampleEnv).1
  = map (timedMetricOf sampleParseDuration
           (default (60 * Second)
              (sampleParseDuration (jsonInterval sampleJsonConfig))))
        (jsonMetrics sampleJsonConfig).
Proof.
  apply LoadConfig_metrics. discriminate.
Defined.

Lemma LoadConfig_port_from_environment_witness :
  Port (LoadConfig sampleParseDuration parse_decimal "config.json"
          (Decoded sampleJsonConfig) sampleEnv).1 = 9090.
Proof.
  apply LoadConfig_port_from_environment; [reflexivity|discriminate|reflexivity].
Defined.

(** * An invariant of the store *)

Section StoreInvariant.
Context `{F64 : Float64Ops}.

(** X24: every poll keeps the store free of labelled entries without labels:
    if each labelled entry of the store has at least one label before a
    poll, so it is after the poll, whatever the database returns. *)
Theorem runQuery_keeps_labelled_entries_non_empty (ρ : RangeOrder Metric)
    (ρl : RangeOrder string) metric result (metrics : gmap string Metric) :
  labelledNonEmpty metrics ->
  labelledNonEmpty (runQuery ρ ρl metric result metrics).1.
Proof.
  intros Hinv k v labels. unfold runQuery.
  destruct result as [| |columns rows rowsErr]; [apply Hinv..|].
  destruct (findValueIdx columns) as [valueIdx|]; [|apply Hinv].
  cbv zeta.
  pose proof (storeRows_origin ρl metric columns valueIdx k
                (Labeled v labels) rows
                (removePrefixed ρ (Name metric +:+ "_") metrics) []) as H.
  destruct (foldl _ _ rows) as [m l]. cbn [fst] in *.
  intros Hk. destruct (H Hk) as [Hold|(values & _ & _ & Hentry)].
  - rewrite removePrefixed_lookup in Hold.
    destruct (hasPrefix _ k); [done|]. by apply (Hinv k v).
  - unfold rowEntry in Hentry. cbv zeta in Hentry.
    destruct (size (rowLabels columns valueIdx values)) as [|n] eqn:Hsize;
      cbn [Nat.ltb Nat.leb] in Hentry; [done|].
    injection Hentry as _ ->. intros Hempty.
    by rewrite Hempty, map_size_empty in Hsize.
Qed.

End StoreInvariant.

Lemma singleton_labels_non_empty (k v : string) :
  ({[k := v]} : gmap string string) <> ∅.
Proof.
  intros Hempty. apply (f_equal (fun m : gmap string string => m !! k)) in Hempty.
  by rewrite lookup_singleton_eq, lookup_empty in Hempty.
Qed.

Lemma usersByStatus_labelledNonEmpty : labelledNonEmpty usersByStatus.
Proof.
  intros k v labels Hk. unfold usersByStatus in Hk.
  apply lookup_insert_Some in Hk as [[_ Heq]|[_ Hk]].
  - injection Heq as _ <-. apply singleton_labels_non_empty.
  - apply lookup_insert_Some in Hk as [[_ Heq]|[_ Hk]];
      [|by rewrite lookup_empty in Hk].
    injection Heq as _ <-. apply singleton_labels_non_empty.
Qed.

Lemma runQuery_keeps_labelled_entries_non_empty_witness :
  labelledNonEmpty
    (runQuery (listed_order Metric) (listed_order string)
       (metricNamed "orders") (oneValue 7) usersByStatus).1.
Proof.
  apply runQuery_keeps_labelled_entries_non_empty.
  exact usersByStatus_labelledNonEmpty.
Defined.

Lemma runQuery_commits_scanned_rows_witness :
  (runQuery (listed_order Metric) (listed_order string) (metricNamed "users")
     (Rows ["status"; "value"]
        [Scanned [VBytes "active"; VInt64 150]; ScanError;
         Scanned [VBytes "inactive"; VInt64 75]] true)
     {["users_status_gone" := Labeled (VInt64 1) {["status" := "gone"]};
       "orders" := Direct (VInt64 3)]}).1
  = foldl (fun m values =>
             <[rowKey (listed_order string) (metricNamed "users")
                 ["status"; "value"] 1 values :=
                 rowEntry ["status"; "value"] 1 values]> m)
          (filter (fun kv => hasPrefix ("users" +:+ "_") kv.1 = false)
             ({["users_status_gone" := Labeled (VInt64 1) {["status" := "gone"]};
               "orders" := Direct (VInt64 3)]} : gmap string Metric))
          (omap scannedValues
             [Scanned [VBytes "active"; VInt64 150]; ScanError;
              Scanned [VBytes "inactive"; VInt64 75]]).
Proof.
  apply (runQuery_commits_scanned_rows (listed_order Metric)
           (listed_order string) (metricNamed "users") ["status"; "value"]
           1%nat).
  reflexivity.
Defined.

(** The poll of the witness above, evaluated: the failed row is left out,
    the row after it is stored, the stale key is gone and the key of the
    other metric is kept, with the cursor error reported. *)
Lemma poll_with_failed_row_and_cursor_error :
  (runQuery (listed_order Metric) (listed_order string) (metricNamed "users")
     (Rows ["status"; "value"]
        [Scanned [VBytes "active"; VInt64 150]; ScanError;
         Scanned [VBytes "inactive"; VInt64 75]] true)
     {["users_status_gone" := Labeled (VInt64 1) {["status" := "gone"]};
       "orders" := Direct (VInt64 3)]}).1
  = {["users_status_active" := Labeled (VInt64 150) {["status" := "active"]};
     "users_status_inactive" := Labeled (VInt64 75) {["status" := "inactive"]};
     "orders" := Direct (VInt64 3)]}.
Proof. reflexivity. Qed.

(** * The encoders under two range orders of every map *)

Section EncoderOrders.
Context `{F64 : Float64Ops}.







End EncoderOrders.

(** The sample stores of the statements below are left by polls. *)
Lemma encoder_samples_polled :
  twoFamilies = poll "orders" (oneValue 7) (poll "users" (oneValue 3) ∅)
  ∧ twoLabels
    = poll "jobs"
        (Rows ["env"; "team"; "value"]
           [Scanned [VBytes "prod"; VBytes "core"; VInt64 1]] false) ∅
  ∧ directUnderGroup
    = poll "users_by_status"
        (Rows ["status"; "value"] [Scanned [VBytes "active"; VInt64 150]]
           false)
        (poll "users" (oneValue 225) ∅).
Proof. repeat split; reflexivity. Qed.



(** The response of [handleMetrics] for a series with two labels. *)
Lemma handleMetrics_two_labels :
  handleMetrics (listed_order Metric) (listed_order string) twoLabels
  = ["# HELP jobs Value from custom SQL query" +:+ nl;
     "# TYPE jobs gauge" +:+ nl;
     "jobs{env=" +:+ dquote +:+ "prod" +:+ dquote +:+ ",team=" +:+ dquote
       +:+ "core" +:+ dquote +:+ "} 1" +:+ nl].
Proof. reflexivity. Qed.
